(** * Frame selection: a model of [src/frame_selection.py]

    The three selectors of the video pipeline are embedded as Rocq
    functions: [uniform_sampling], [scene_change_detection] and
    [motion_based_sampling].  Frame references are file paths (strings).
    The OpenCV and NumPy primitives the selectors call are the methods of
    the class [Cv2]; each of them may raise, and the decoder [imread]
    reports a file it cannot read by returning [None]. *)

From Stdlib Require Import ZArith QArith Lia.
From Stdlib Require Import Ascii DecimalString DecimalNat.
From stdpp Require Import base option list strings.

Local Open Scope Z_scope.
Local Open Scope list_scope.

(** ** Python values *)

(** A Python float, as far as ordering goes: the finite doubles are
    rationals, next to the two infinities and NaN. *)
Inductive pyfloat : Type :=
  | FNan
  | FNegInf
  | FFinite (q : Q)
  | FPosInf.

Definition Qlt_bool (x y : Q) : bool :=
  (Qnum x * Zpos (Qden y) <? Qnum y * Zpos (Qden x))%Z.

(** [a < b] on floats: false as soon as one side is NaN. *)
Definition float_lt (a b : pyfloat) : bool :=
  match a, b with
  | FNan, _ => false
  | _, FNan => false
  | FNegInf, FNegInf => false
  | FNegInf, _ => true
  | FFinite _, FNegInf => false
  | FFinite x, FFinite y => Qlt_bool x y
  | FFinite _, FPosInf => true
  | FPosInf, _ => false
  end.

(** [a > b] *)
Definition float_gt (a b : pyfloat) : bool := float_lt b a.

Definition float_of_Z (z : Z) : pyfloat := FFinite (inject_Z z).

(** Exceptions: [ValueError] is what the selectors raise on invalid input,
    [cv2_error] stands for whatever a feature primitive raises. *)
Inductive exn : Type :=
  | ValueError (msg : string)
  | cv2_error (msg : string).

Definition exn_str (e : exn) : string :=
  match e with
  | ValueError msg => msg
  | cv2_error msg => msg
  end.

Definition is_ValueError (e : exn) : bool :=
  match e with
  | ValueError _ => true
  | cv2_error _ => false
  end.

(** The outcome of a call: a value, or a raised exception. *)
Inductive result (A : Type) : Type :=
  | Ok (a : A)
  | Raise (e : exn).
Arguments Ok {A} a.
Arguments Raise {A} e.

#[global] Instance result_ret : MRet result := λ A a, Ok a.
#[global] Instance result_bind : MBind result := λ A B f m,
  match m with
  | Ok a => f a
  | Raise e => Raise e
  end.

(** ** Slices *)

(** Walk [l], keeping an element each time the countdown [k] reaches zero
    and then restarting it at [step - 1]. *)
Fixpoint every_nth {A} (step k : nat) (l : list A) : list A :=
  match l with
  | [] => []
  | x :: t =>
      match k with
      | O => x :: every_nth step (step - 1) t
      | S k' => every_nth step k' t
      end
  end.

(** [l[::step]] *)
Definition slice_step {A} (l : list A) (step : Z) : result (list A) :=
  if step =? 0 then Raise (ValueError "slice step cannot be zero")
  else if 0 <? step then Ok (every_nth (Z.to_nat step) 0 l)
  else Ok (every_nth (Z.to_nat (- step)) 0 (rev l)).

(** [l[:n]] *)
Definition slice_to {A} (l : list A) (n : Z) : list A :=
  if 0 <=? n then take (Z.to_nat n) l
  else take (length l - Z.to_nat (- n))%nat l.

Definition len {A} (l : list A) : Z := Z.of_nat (length l).

(** ** [uniform_sampling] *)

Definition uniform_sampling (frames : list string) (num_samples : Z)
  : result (list string) :=
  if bool_decide (frames = []) then Raise (ValueError "Empty frames list provided")
  else if num_samples <=? 0 then Raise (ValueError "num_samples must be positive")
  else if num_samples >? len frames then Ok frames
  else
    let step := len frames / num_samples in
    sliced ← slice_step frames step;
    Ok (slice_to sliced num_samples).

(** ** The OpenCV / NumPy primitives *)

Inductive imread_flag : Type := IMREAD_COLOR | IMREAD_GRAYSCALE.
Inductive hist_cmp : Type := HISTCMP_CHISQR.

(** The fixed arguments of [cv2.calcOpticalFlowFarneback]. *)
Record farneback_params : Type := {
  pyr_scale : Q;
  levels : Z;
  winsize : Z;
  iterations : Z;
  poly_n : Z;
  poly_sigma : Q;
  flags : Z
}.

Definition farneback_config : farneback_params :=
  {| pyr_scale := 1 # 2; levels := 3; winsize := 15; iterations := 3;
     poly_n := 5; poly_sigma := 12 # 10; flags := 0 |}.

(** A flattened histogram. *)
Definition hist : Type := list pyfloat.

(** What the selectors need from [cv2] and [numpy].  [calcHist frame c] is
    [cv2.calcHist([frame], [c], None, [256], [0, 256])]; [norm_mean flow]
    is [np.linalg.norm(flow, axis=2).mean()]. *)
Class Cv2 : Type := {
  ndarray : Type;
  flow_field : Type;
  shape : ndarray → list nat;
  imread : string → imread_flag → result (option ndarray);
  calcHist : ndarray → nat → result hist;
  normalize : hist → result hist;
  compareHist : hist → hist → hist_cmp → result pyfloat;
  calcOpticalFlowFarneback :
    ndarray → ndarray → farneback_params → result flow_field;
  norm_mean : flow_field → result pyfloat
}.

(** ** [scene_change_detection] *)

Record scene_state : Type := {
  selected_frames : list string;
  prev_hist : option hist
}.

(** Lines 57-66: three channel histograms, normalised and concatenated. *)
Definition color_hist `{Cv2} (frame : ndarray) : result hist :=
  hist_b ← calcHist frame 0%nat;
  hist_g ← calcHist frame 1%nat;
  hist_r ← calcHist frame 2%nat;
  nb ← normalize hist_b;
  ng ← normalize hist_g;
  nr ← normalize hist_r;
  Ok (nb ++ ng ++ nr).

(** One turn of the loop of lines 51-72. *)
Definition scene_step `{Cv2} (threshold : pyfloat) (st : scene_state)
    (frame_path : string) : result scene_state :=
  read ← imread frame_path IMREAD_COLOR;
  match read with
  | None => Ok st
  | Some frame =>
      h ← color_hist frame;
      sel ← match prev_hist st with
            | Some prev =>
                diff ← compareHist prev h HISTCMP_CHISQR;
                Ok (if float_gt diff threshold
                    then selected_frames st ++ [frame_path]
                    else selected_frames st)
            | None => Ok (selected_frames st)
            end;
      Ok {| selected_frames := sel; prev_hist := Some h |}
  end.

Fixpoint scene_scan `{Cv2} (threshold : pyfloat) (st : scene_state)
    (frames : list string) : result scene_state :=
  match frames with
  | [] => Ok st
  | frame_path :: rest =>
      st' ← scene_step threshold st frame_path;
      scene_scan threshold st' rest
  end.

Definition scene_change_detection `{Cv2} (frames : list string)
    (threshold : pyfloat) : result (list string) :=
  match frames with
  | [] => Raise (ValueError "Empty frames list provided")
  | frame0 :: _ =>
      st ← scene_scan threshold
             {| selected_frames := [frame0]; prev_hist := None |} frames;
      Ok (selected_frames st)
  end.

(** ** [motion_based_sampling] *)

Record motion_state `{Cv2} : Type := {
  m_selected : list string;
  prev_frame : option ndarray
}.

(** The body of the [try] of lines 97-111; a [continue] is [Ok st]. *)
Definition motion_body `{Cv2} (threshold : pyfloat) (st : motion_state)
    (frame_path : string) : result motion_state :=
  read ← imread frame_path IMREAD_GRAYSCALE;
  match read with
  | None => Ok st
  | Some frame =>
      match prev_frame st with
      | Some prev =>
          if bool_decide (shape prev ≠ shape frame) then Ok st
          else
            flow ← calcOpticalFlowFarneback prev frame farneback_config;
            motion_magnitude ← norm_mean flow;
            Ok {| m_selected :=
                    if float_gt motion_magnitude threshold
                    then m_selected st ++ [frame_path]
                    else m_selected st;
                  prev_frame := Some frame |}
      | None => Ok {| m_selected := m_selected st; prev_frame := Some frame |}
      end
  end.

Definition error_line (frame_path : string) (e : exn) : string :=
  "Error processing frame " +:+ frame_path +:+ ": " +:+ exn_str e.

(** One turn of the loop of lines 95-114: the loop variables and the
    lines printed so far. *)
Definition motion_step `{Cv2} (threshold : pyfloat)
    (st : motion_state * list string) (frame_path : string)
  : motion_state * list string :=
  match motion_body threshold st.1 frame_path with
  | Ok vars => (vars, st.2)
  | Raise e => (st.1, st.2 ++ [error_line frame_path e])
  end.

Definition motion_init `{Cv2} : motion_state * list string :=
  ({| m_selected := []; prev_frame := None |}, []).

Definition motion_scan `{Cv2} (threshold : pyfloat)
    (st : motion_state * list string) (frames : list string)
  : motion_state * list string :=
  foldl (motion_step threshold) st frames.

(** The call with what it prints. *)
Definition motion_based_sampling_io `{Cv2} (frames : list string)
    (threshold : pyfloat) : result (list string) * list string :=
  if bool_decide (frames = [])
  then (Raise (ValueError "Empty frames list provided"), [])
  else if float_lt threshold (float_of_Z 0)
  then (Raise (ValueError "threshold must be non-negative"), [])
  else
    let st := motion_scan threshold motion_init frames in
    (Ok (m_selected st.1), st.2).

Definition motion_based_sampling `{Cv2} (frames : list string)
    (threshold : pyfloat) : result (list string) :=
  (motion_based_sampling_io frames threshold).1.

(** ** A small concrete world

    Files are looked up in a table; a raster is its shape and a brightness,
    and a negative brightness makes every feature primitive raise.  The
    header of [huge.jpg] declares more pixels than the decoder accepts, and
    [imread] raises on it. *)

Definition toy_files (path : string) : option (list nat * Z) :=
  if String.eqb path "f0.jpg" then Some ([4; 4]%nat, 10)
  else if String.eqb path "f1.jpg" then Some ([4; 4]%nat, 10)
  else if String.eqb path "f2.jpg" then Some ([4; 4]%nat, 60)
  else if String.eqb path "f3.jpg" then Some ([4; 4]%nat, 61)
  else if String.eqb path "small.jpg" then Some ([2; 2]%nat, 99)
  else if String.eqb path "bad.jpg" then Some ([4; 4]%nat, -1)
  else None.

Definition toy_imread (path : string) (flag : imread_flag)
  : result (option (list nat * Z)) :=
  if String.eqb path "huge.jpg"
  then Raise (cv2_error "imread: image is too large")
  else
    match toy_files path with
    | Some (dims, v) =>
        Ok (Some (match flag with
                  | IMREAD_COLOR => dims ++ [3%nat]
                  | IMREAD_GRAYSCALE => dims
                  end, v))
    | None => Ok None
    end.

Definition toy_bin (h : hist) : Q :=
  match h with
  | FFinite q :: _ => q
  | _ => 0%Q
  end.

Definition toy_cv2 : Cv2 := {|
  ndarray := list nat * Z;
  flow_field := Q;
  shape := fst;
  imread := toy_imread;
  calcHist := λ frame _,
    if frame.2 <? 0 then Raise (cv2_error "calcHist: bad raster")
    else Ok [FFinite (inject_Z frame.2)];
  normalize := λ h, Ok h;
  compareHist := λ a b _,
    Ok (FFinite ((toy_bin a - toy_bin b) * (toy_bin a - toy_bin b))%Q);
  calcOpticalFlowFarneback := λ prev frame _,
    if frame.2 <? 0 then Raise (cv2_error "Farneback: bad raster")
    else Ok (inject_Z (Z.abs (frame.2 - prev.2)));
  norm_mean := λ flow, Ok (FFinite flow)
|}.

(** ** Vocabulary for the statements *)

Definition is_ok {A} (r : result A) : bool :=
  match r with
  | Ok _ => true
  | Raise _ => false
  end.

(** The frame is read by [imread] under the given flag. *)
Definition decodable `{Cv2} (flag : imread_flag) (frame_path : string) : bool :=
  match imread frame_path flag with
  | Ok (Some _) => true
  | _ => false
  end.

(** The decode of the frame fails: [imread] returns [None]. *)
Definition decode_fails `{Cv2} (flag : imread_flag) (frame_path : string)
  : bool :=
  match imread frame_path flag with
  | Ok None => true
  | _ => false
  end.

(** The list without the frames whose decode fails. *)
Definition without_failed `{Cv2} (flag : imread_flag) (frames : list string)
  : list string :=
  filter (λ f, decode_fails flag f = false) frames.

(** The frames of the list that decode, in their order. *)
Definition decoded_frames `{Cv2} (flag : imread_flag) (frames : list string)
  : list string :=
  filter (λ f, decodable flag f = true) frames.

(** The histogram of a frame, when it decodes and no primitive raises. *)
Definition frame_hist `{Cv2} (frame_path : string) : option hist :=
  match imread frame_path IMREAD_COLOR with
  | Ok (Some frame) =>
      match color_hist frame with
      | Ok h => Some h
      | Raise _ => None
      end
  | _ => None
  end.

(** Each histogram of the list can be compared with the next one. *)
Fixpoint comparable_in_turn `{Cv2} (hs : list hist) : bool :=
  match hs with
  | [] => true
  | a :: rest =>
      match rest with
      | b :: _ => is_ok (compareHist a b HISTCMP_CHISQR)
      | [] => true
      end && comparable_in_turn rest
  end.

(** Neither the decoder nor a histogram primitive raises on these frames:
    [imread] returns for every frame, every decoded frame has a histogram,
    and the histogram of each decoded frame can be compared with that of
    the decoded frame before it. *)
Definition scene_faultless `{Cv2} (frames : list string) : bool :=
  forallb (λ f, match imread f IMREAD_COLOR with
                | Ok (Some frame) => is_ok (color_hist frame)
                | Ok None => true
                | Raise _ => false
                end) frames
  && comparable_in_turn (omap frame_hist frames).

(** What [imread] returns in grayscale, nothing when it raises. *)
Definition decoded_gray `{Cv2} (frame_path : string) : option ndarray :=
  match imread frame_path IMREAD_GRAYSCALE with
  | Ok read => read
  | Raise _ => None
  end.

(** The raster of the first frame of the list that decodes in grayscale. *)
Definition first_decoded `{Cv2} (frames : list string) : option ndarray :=
  head (omap decoded_gray frames).

(** The frame decodes in grayscale to a raster of shape [s]. *)
Definition decodes_with_shape `{Cv2} (s : list nat) (frame_path : string) : Prop :=
  ∃ frame, imread frame_path IMREAD_GRAYSCALE = Ok (Some frame)
           ∧ shape frame = s.

(** *** Readings of the specification that the code does not meet *)

(** "The first successfully decoded frame is always in the output, and a
    frame whose decode fails contributes nothing to the output." *)
Definition first_decoded_selected_failed_absent `{Cv2}
    (frames : list string) (threshold : pyfloat) : Prop :=
  ∀ out, scene_change_detection frames threshold = Ok out →
    (∀ f, head (decoded_frames IMREAD_COLOR frames) = Some f → f ∈ out) ∧
    (∀ f, f ∈ frames → imread f IMREAD_COLOR = Ok None → f ∉ out).

(** "When the current frame decodes but its dimensions differ from those of
    the stored previous raster, the current raster still becomes the new
    previous-state." *)
Definition mismatch_updates_prev_state `{Cv2} (threshold : pyfloat) : Prop :=
  ∀ (st : motion_state * list string) (frame_path : string)
    (frame prev : ndarray),
    imread frame_path IMREAD_GRAYSCALE = Ok (Some frame) →
    prev_frame st.1 = Some prev →
    shape prev ≠ shape frame →
    prev_frame (motion_step threshold st frame_path).1 = Some frame.

(** "Only InvalidInput surfaces to the caller", for the three selectors. *)
Definition only_invalid_input_surfaces `{Cv2} : Prop :=
  ∀ (frames : list string) (count : Z) (threshold : pyfloat) (e : exn),
    uniform_sampling frames count = Raise e
    ∨ scene_change_detection frames threshold = Raise e
    ∨ motion_based_sampling frames threshold = Raise e →
    is_ValueError e = true.

(** "[scene_change_detection] fails with InvalidInput on a negative
    threshold." *)
Definition scene_rejects_negative_threshold `{Cv2} : Prop :=
  ∀ (frames : list string) (threshold : pyfloat),
    float_lt threshold (float_of_Z 0) = true →
    ∃ msg, scene_change_detection frames threshold = Raise (ValueError msg).

(** *** Vocabulary for further properties of the selectors *)

(** The frame decodes in grayscale to a raster of shape [s]. *)
Definition has_shape `{Cv2} (s : list nat) (frame_path : string) : bool :=
  match imread frame_path IMREAD_GRAYSCALE with
  | Ok (Some frame) => bool_decide (shape frame = s)
  | _ => false
  end.

(** The frame counts in a scan whose rasters have shape [s]: it decodes to
    that shape, or [imread] raises on it. *)
Definition counts_for_shape `{Cv2} (s : list nat) (frame_path : string)
  : bool :=
  match imread frame_path IMREAD_GRAYSCALE with
  | Ok (Some frame) => bool_decide (shape frame = s)
  | Ok None => false
  | Raise _ => true
  end.

(** The distance between the histograms of two frames exceeds the
    threshold. *)
Definition scene_changed `{Cv2} (threshold : pyfloat) (a b : string) : bool :=
  match frame_hist a, frame_hist b with
  | Some ha, Some hb =>
      match compareHist ha hb HISTCMP_CHISQR with
      | Ok d => float_gt d threshold
      | Raise _ => false
      end
  | _, _ => false
  end.

(** The frames of [fs] that differ from the frame just before them, [prev]
    being the frame before the first. *)
Fixpoint scene_changes `{Cv2} (threshold : pyfloat) (prev : option string)
    (fs : list string) : list string :=
  match fs with
  | [] => []
  | f :: rest =>
      match prev with
      | Some p =>
          if scene_changed threshold p f
          then f :: scene_changes threshold (Some f) rest
          else scene_changes threshold (Some f) rest
      | None => scene_changes threshold (Some f) rest
      end
  end.

(** * Extraction and detection: [src/preprocess.py], [src/object_detection.py] *)

(** ** Python values, continued *)

(** The exceptions of these two stages; all are caught by
    [except Exception].  [PyLibraryError] stands for what OpenCV or the
    detector raise. *)
Inductive pyexn : Type :=
  | PyValueError (msg : string)
  | PyRuntimeError (msg : string)
  | PyZeroDivisionError (msg : string)
  | PyOverflowError (msg : string)
  | PyOSError (msg : string)
  | PyLibraryError (msg : string).

(** [str(e)] *)
Definition pyexn_str (e : pyexn) : string :=
  match e with
  | PyValueError msg | PyRuntimeError msg | PyZeroDivisionError msg
  | PyOverflowError msg | PyOSError msg | PyLibraryError msg => msg
  end.

Inductive outcome (A : Type) : Type :=
  | Return (a : A)
  | Throw (e : pyexn).
Arguments Return {A} a.
Arguments Throw {A} e.

#[global] Instance outcome_ret : MRet outcome := λ A a, Return a.
#[global] Instance outcome_bind : MBind outcome := λ A B f m,
  match m with
  | Return a => f a
  | Throw e => Throw e
  end.

(** [int(x)] on a float: truncation towards zero. *)
Definition int_of_float (x : pyfloat) : outcome Z :=
  match x with
  | FNan => Throw (PyValueError "cannot convert float NaN to integer")
  | FNegInf | FPosInf =>
      Throw (PyOverflowError "cannot convert float infinity to integer")
  | FFinite q => Return (Z.quot (Qnum q) (Zpos (Qden q)))
  end.

(** [str(n)] for a natural number and for an integer. *)
Definition str_nat (n : nat) : string :=
  NilEmpty.string_of_uint (Nat.to_uint n).

Definition str_Z (z : Z) : string :=
  if z <? 0 then "-" +:+ str_nat (Z.to_nat (- z)) else str_nat (Z.to_nat z).

Fixpoint zeros (n : nat) : string :=
  match n with
  | O => EmptyString
  | S n' => String "0"%char (zeros n')
  end.

(** [s.zfill(width)] for a string of digits. *)
Definition zfill (width : nat) (s : string) : string :=
  zeros (width - String.length s) +:+ s.

(** [f"{z:04d}"]: the sign counts in the width. *)
Definition format_04d (z : Z) : string :=
  if z <? 0 then "-" +:+ zfill 3 (str_nat (Z.to_nat (- z)))
  else zfill 4 (str_nat (Z.to_nat z)).

Definition starts_with_slash (s : string) : bool :=
  match s with
  | String c _ => Ascii.eqb c "/"%char
  | EmptyString => false
  end.

Fixpoint ends_with_slash (s : string) : bool :=
  match s with
  | EmptyString => false
  | String c EmptyString => Ascii.eqb c "/"%char
  | String _ rest => ends_with_slash rest
  end.

(** [os.path.join(a, b)] of [posixpath]. *)
Definition path_join (a b : string) : string :=
  if starts_with_slash b then b
  else if String.eqb a EmptyString || ends_with_slash a then a +:+ b
  else a +:+ "/" +:+ b.

(** The operating system and the interpreter.  The text of the
    [ZeroDivisionError] of [%] depends on the version of the interpreter. *)
Class Os : Type := {
  path_exists : string → bool;
  makedirs : string → outcome unit;
  modulo_by_zero_msg : string
}.

(** [a % b] on integers. *)
Definition py_mod `{Os} (a b : Z) : outcome Z :=
  if b =? 0 then Throw (PyZeroDivisionError modulo_by_zero_msg)
  else Return (a mod b).

(** ** [extract_frames] *)

(** An opened [cv2.VideoCapture]: [cap_frames] are the frames that the
    successive [cap.read()] return before the one that returns [ret] false. *)
Record capture `{Cv2} : Type := {
  cap_opened : bool;
  cap_fps : pyfloat;
  cap_frame_count : pyfloat;
  cap_frames : list ndarray
}.

Class VideoIO `{Cv2} `{Os} : Type := {
  VideoCapture : string → capture;
  imwrite : string → ndarray → outcome bool
}.

(** What the function does to the outside, in order.  [EvImwrite] is a call
    of [cv2.imwrite] that returned, with what it returned; [EvProgress] is
    the progress line printed for these two counters. *)
Inductive event `{Cv2} : Type :=
  | EvMakedirs (dir : string)
  | EvImwrite (path : string) (frame : ndarray) (written : bool)
  | EvProgress (frame_count total_frames : Z)
  | EvPrint (line : string)
  | EvRelease.

Record extract_state : Type := {
  extracted_frames : list string;
  frame_count : Z;
  saved_count : Z
}.

Definition frame_file (output_dir : string) (saved_count : Z) : string :=
  path_join output_dir ("frame_" +:+ format_04d saved_count +:+ ".jpg").

(** One turn of the loop of lines 42-58 on a frame that was read. *)
Definition extract_turn `{VideoIO} (output_dir : string)
    (frame_interval total_frames : Z) (st : extract_state) (log : list event)
    (frame : ndarray) : outcome extract_state * list event :=
  match py_mod (frame_count st) frame_interval with
  | Throw e => (Throw e, log)
  | Return r =>
      if r =? 0 then
        let frame_path := frame_file output_dir (saved_count st) in
        match imwrite frame_path frame with
        | Throw e => (Throw e, log)
        | Return written =>
            let log1 := log ++ [EvImwrite frame_path frame written] in
            let st1 :=
              {| extracted_frames := extracted_frames st ++ [frame_path];
                 frame_count := frame_count st + 1;
                 saved_count := saved_count st + 1 |} in
            if 0 <? total_frames then
              match py_mod (frame_count st) (total_frames / 10) with
              | Throw e => (Throw e, log1)
              | Return r' =>
                  if r' =? 0
                  then (Return st1,
                        log1 ++ [EvProgress (frame_count st) total_frames])
                  else (Return st1, log1)
              end
            else (Return st1, log1)
        end
      else
        (Return {| extracted_frames := extracted_frames st;
                   frame_count := frame_count st + 1;
                   saved_count := saved_count st |}, log)
  end.

Fixpoint extract_loop `{VideoIO} (output_dir : string)
    (frame_interval total_frames : Z) (st : extract_state) (log : list event)
    (frames : list ndarray) : outcome extract_state * list event :=
  match frames with
  | [] => (Return st, log)
  | frame :: rest =>
      match extract_turn output_dir frame_interval total_frames st log frame with
      | (Return st', log') =>
          extract_loop output_dir frame_interval total_frames st' log' rest
      | (Throw e, log') => (Throw e, log')
      end
  end.

(** The body of the [try] of lines 31-58. *)
Definition extract_try `{VideoIO} (video_path output_dir : string)
    (frame_rate : Z) (cap : capture) : outcome extract_state * list event :=
  if negb (cap_opened cap)
  then (Throw (PyRuntimeError ("Failed to open video: " +:+ video_path)), [])
  else
    match int_of_float (cap_fps cap) with
    | Throw e => (Throw e, [])
    | Return fps =>
        match int_of_float (cap_frame_count cap) with
        | Throw e => (Throw e, [])
        | Return total_frames =>
            let frame_interval := fps / frame_rate in
            extract_loop output_dir frame_interval total_frames
              {| extracted_frames := []; frame_count := 0; saved_count := 0 |}
              [] (cap_frames cap)
        end
    end.

(** The call, with what it does to the outside. *)
Definition extract_frames `{VideoIO} (video_path output_dir : string)
    (frame_rate : Z) : outcome (list string) * list event :=
  if negb (path_exists video_path)
  then (Throw (PyValueError ("Video file not found: " +:+ video_path)), [])
  else if frame_rate <=? 0
  then (Throw (PyValueError ("Frame rate must be positive, got "
                             +:+ str_Z frame_rate)), [])
  else
    match makedirs output_dir with
    | Throw e => (Throw e, [EvMakedirs output_dir])
    | Return _ =>
        let cap := VideoCapture video_path in
        let '(r, log) := extract_try video_path output_dir frame_rate cap in
        let log' := EvMakedirs output_dir :: log ++ [EvRelease] in
        match r with
        | Throw e =>
            (Throw (PyRuntimeError ("Error processing video: "
                                    +:+ pyexn_str e)), log')
        | Return st =>
            (Return (extracted_frames st),
             log' ++ [EvPrint ("Extracted " +:+ str_Z (saved_count st)
                               +:+ " frames and saved to " +:+ output_dir)])
        end
    end.

(** ** [detect_objects] *)

(** The detector: [YOLO(model_path)], [model(frame)],
    [results.save(save_dir=...)] and [results[0].boxes.data.cpu().numpy()]. *)
Class Detector `{Cv2} `{Os} : Type := {
  yolo_model : Type;
  yolo_results : Type;
  boxes_array : Type;
  YOLO : string → outcome yolo_model;
  model_call : yolo_model → ndarray → outcome yolo_results;
  results_save : yolo_results → string → outcome unit;
  results_boxes : yolo_results → outcome boxes_array
}.

(** An exception of the image primitives, as an exception of this stage. *)
Definition pyexn_of_exn (e : exn) : pyexn :=
  match e with
  | ValueError msg => PyValueError msg
  | cv2_error msg => PyLibraryError msg
  end.

(** The body of the [try] of lines 35-50: the entry appended for the frame
    and the line printed, unless something raises. *)
Definition detect_body `{Detector} (model : yolo_model) (output_dir : string)
    (total_frames idx : nat) (frame_path : string)
  : outcome (option boxes_array * string) :=
  if negb (path_exists frame_path)
  then Return (None, "Warning: Frame not found: " +:+ frame_path)
  else
    match imread frame_path IMREAD_COLOR with
    | Raise e => Throw (pyexn_of_exn e)
    | Ok None =>
        Return (None, "Warning: Failed to read frame: " +:+ frame_path)
    | Ok (Some frame) =>
        results ← model_call model frame;
        _ ← results_save results output_dir;
        data ← results_boxes results;
        Return (Some data,
                "Processed frame " +:+ str_nat idx +:+ "/"
                +:+ str_nat total_frames)
    end.

(** One turn of the loop of lines 33-54. *)
Definition detect_step `{Detector} (model : yolo_model) (output_dir : string)
    (total_frames idx : nat)
    (st : list (option boxes_array) * list string) (frame_path : string)
  : list (option boxes_array) * list string :=
  match detect_body model output_dir total_frames idx frame_path with
  | Return (entry, line) => (st.1 ++ [entry], st.2 ++ [line])
  | Throw e =>
      (st.1 ++ [None],
       st.2 ++ ["Error processing frame " +:+ frame_path +:+ ": "
                +:+ pyexn_str e])
  end.

(** [for idx, frame_path in enumerate(frames, idx)] *)
Fixpoint detect_loop `{Detector} (model : yolo_model) (output_dir : string)
    (total_frames idx : nat)
    (st : list (option boxes_array) * list string) (frames : list string)
  : list (option boxes_array) * list string :=
  match frames with
  | [] => st
  | frame_path :: rest =>
      detect_loop model output_dir total_frames (S idx)
        (detect_step model output_dir total_frames idx st frame_path) rest
  end.

(** The call with what it prints. *)
Definition detect_objects `{Detector} (frames : list string)
    (model_path output_dir : string)
  : outcome (list (option boxes_array)) * list string :=
  if bool_decide (frames = [])
  then (Throw (PyValueError "Empty frames list provided"), [])
  else if negb (path_exists model_path)
  then (Throw (PyValueError ("Model not found at: " +:+ model_path)), [])
  else
    match makedirs output_dir with
    | Throw e => (Throw e, [])
    | Return _ =>
        match YOLO model_path with
        | Throw e => (Throw e, [])
        | Return model =>
            let st := detect_loop model output_dir (length frames) 1 ([], [])
                        frames in
            (Return st.1, st.2)
        end
    end.

(** ** Vocabulary and a concrete world for these two stages *)

(** The image files written, in order. *)
Definition writes_of `{Cv2} (log : list event) : list (string * ndarray) :=
  omap (λ ev, match ev with
              | EvImwrite path frame _ => Some (path, frame)
              | _ => None
              end) log.

(** The name of the [i]-th extracted frame. *)
Definition nth_frame_file (output_dir : string) (i : nat) : string :=
  frame_file output_dir (Z.of_nat i).

(** What [detect_objects] records for one frame. *)
Definition detect_entry `{Detector} (model : yolo_model) (output_dir : string)
    (frame_path : string) : option boxes_array :=
  match detect_body model output_dir 0 0 frame_path with
  | Return (entry, _) => entry
  | Throw _ => None
  end.

Definition toy_os : Os := {|
  path_exists := λ path,
    String.eqb path "video.mp4" || String.eqb path "short.mp4"
    || String.eqb path "yolov8n.pt"
    || match toy_files path with Some _ => true | None => false end;
  makedirs := λ _, Return tt;
  modulo_by_zero_msg := "integer modulo by zero"
|}.

(** [video.mp4]: twelve frames at 30 frames per second; [short.mp4]: the
    first five of them. *)
Definition toy_video_frames : list (list nat * Z) :=
  (λ i, ([4; 4]%nat, Z.of_nat i)) <$> seq 0 12.

Definition toy_video : @VideoIO toy_cv2 toy_os := {|
  VideoCapture := λ path,
    if String.eqb path "video.mp4"
    then @Build_capture toy_cv2 true (float_of_Z 30) (float_of_Z 12)
           toy_video_frames
    else if String.eqb path "short.mp4"
    then @Build_capture toy_cv2 true (float_of_Z 30) (float_of_Z 5)
           (take 5 toy_video_frames)
    else @Build_capture toy_cv2 false (float_of_Z 0) (float_of_Z 0) [];
  imwrite := λ _ _, Return true
|}.

Definition toy_model_call (model : unit) (frame : @ndarray toy_cv2)
  : outcome Z :=
  if snd frame <? 0 then Throw (PyLibraryError "inference failed")
  else Return (snd frame).

Definition toy_detector : @Detector toy_cv2 toy_os := {|
  yolo_model := unit;
  yolo_results := Z;
  boxes_array := Z;
  YOLO := λ _, Return tt;
  model_call := toy_model_call;
  results_save := λ _ _, Return tt;
  results_boxes := λ r, Return r
|}.

(** * Properties *)

(** ** Float ordering *)

Lemma Qlt_bool_iff (x y : Q) : Qlt_bool x y = true ↔ (x < y)%Q.
Proof. unfold Qlt_bool, Qlt. apply Z.ltb_lt. Qed.

Lemma float_lt_trans (a b c : pyfloat) :
  float_lt a b = true → float_lt b c = true → float_lt a c = true.
Proof.
  destruct a as [| |x|], b as [| |y|], c as [| |z|]; simpl; try done.
  rewrite !Qlt_bool_iff. apply Qlt_trans.
Qed.

Lemma float_gt_weaken (t1 t2 d : pyfloat) :
  float_lt t1 t2 = true → float_gt d t2 = true → float_gt d t1 = true.
Proof. unfold float_gt. apply float_lt_trans. Qed.

(** ** Slices *)

Lemma every_nth_sublist {A} (step k : nat) (l : list A) :
  every_nth step k l `sublist_of` l.
Proof.
  revert k. induction l as [|x t IH]; intros k; simpl.
  - constructor.
  - destruct k as [|k'].
    + apply sublist_skip, IH.
    + apply sublist_cons, IH.
Qed.

Lemma every_nth_lookup {A} (step k i : nat) (l : list A) :
  (1 ≤ step)%nat →
  every_nth step k l !! i = l !! (k + i * step)%nat.
Proof.
  intros Hstep. revert k i.
  induction l as [|x t IH]; intros k i; simpl.
  - by rewrite !lookup_nil.
  - destruct k as [|k'].
    + destruct i as [|i']; [done|]. simpl.
      rewrite IH. replace (step + i' * step)%nat
        with (S (step - 1 + i' * step)) by lia. done.
    + rewrite IH. done.
Qed.

Lemma every_nth_one {A} (l : list A) : every_nth 1 0 l = l.
Proof. induction l as [|x t IH]; simpl; [done|]. by rewrite IH. Qed.

Lemma every_nth_length_ge {A} (step n : nat) (l : list A) :
  (1 ≤ step)%nat → (n * step ≤ length l)%nat →
  (n ≤ length (every_nth step 0 l))%nat.
Proof.
  intros Hstep Hn. destruct n as [|n']; [lia|].
  assert (is_Some (every_nth step 0 l !! n')) as Hs.
  { rewrite every_nth_lookup by done. apply lookup_lt_is_Some. simpl. nia. }
  apply lookup_lt_is_Some in Hs. lia.
Qed.

Lemma len_pos_nonempty {A} (l : list A) : l ≠ [] → 0 < len l.
Proof. unfold len. destruct l; [done|]. simpl length. lia. Qed.

(** ** [uniform_sampling] *)

(** C3: on a non-empty list and a positive count, [uniform_sampling] returns
    the frames unchanged when the count is at least their number; for a
    smaller count it returns the frames at positions 0, stride, 2*stride, ...
    with stride = floor(len / count), cut after the first count of them: the
    result has exactly count elements and is a subsequence of the frames in
    their order. *)
Theorem uniform_sampling_spec (frames : list string) (count : Z) :
  frames ≠ [] → 0 < count →
  (len frames ≤ count → uniform_sampling frames count = Ok frames) ∧
  (count < len frames →
     ∃ out, uniform_sampling frames count = Ok out ∧
       let stride := Z.to_nat (len frames / count) in
       (1 ≤ stride)%nat ∧
       length out = Z.to_nat count ∧
       (∀ i : nat, (i < Z.to_nat count)%nat →
                   out !! i = frames !! (i * stride)%nat) ∧
       out `sublist_of` frames).
Proof.
  intros Hne Hpos.
  unfold uniform_sampling.
  rewrite bool_decide_eq_false_2 by done.
  destruct (Z.leb_spec count 0) as [?|_]; [lia|].
  split.
  - intros Hge. destruct (Z.gtb_spec count (len frames)) as [_|Hle]; [done|].
    assert (count = len frames) as -> by lia.
    rewrite Z.div_same by lia.
    unfold slice_step, slice_to, len. simpl.
    rewrite every_nth_one.
    destruct (Z.leb_spec 0 (Z.of_nat (length frames))); [|lia].
    rewrite Nat2Z.id, firstn_all. done.
  - intros Hlt. destruct (Z.gtb_spec count (len frames)) as [?|_]; [lia|].
    assert (1 ≤ len frames / count) as Hstride.
    { apply Z.div_le_lower_bound; lia. }
    assert (count * (len frames / count) ≤ len frames) as Hmul.
    { apply Z.mul_div_le. lia. }
    unfold slice_step.
    destruct (Z.eqb_spec (len frames / count) 0) as [?|_]; [lia|].
    destruct (Z.ltb_spec 0 (len frames / count)) as [_|?]; [|lia].
    simpl. eexists. split; [reflexivity|].
    unfold slice_to. destruct (Z.leb_spec 0 count) as [_|?]; [|lia].
    set (stride := Z.to_nat (len frames / count)).
    assert (1 ≤ stride)%nat as Hs1 by (unfold stride; lia).
    assert (Z.to_nat count * stride ≤ length frames)%nat as Hfit.
    { unfold stride, len in *. nia. }
    split; [done|]. split; [|split].
    + rewrite length_take.
      pose proof (every_nth_length_ge stride (Z.to_nat count) frames Hs1 Hfit).
      lia.
    + intros i Hi. rewrite lookup_take_lt by done.
      by rewrite every_nth_lookup.
    + etrans; [apply sublist_take|apply every_nth_sublist].
Qed.

Lemma uniform_sampling_spec_witness :
  (["f0.jpg"; "f1.jpg"; "f2.jpg"; "f3.jpg"] ≠ [] ∧ 0 < 2) ∧
  ∃ out, uniform_sampling ["f0.jpg"; "f1.jpg"; "f2.jpg"; "f3.jpg"] 2 = Ok out ∧
         length out = 2%nat ∧
         out `sublist_of` ["f0.jpg"; "f1.jpg"; "f2.jpg"; "f3.jpg"].
Proof.
  split; [split; [done|lia]|].
  destruct (uniform_sampling_spec ["f0.jpg"; "f1.jpg"; "f2.jpg"; "f3.jpg"] 2)
    as [_ Hsmall]; [done|lia|].
  destruct Hsmall as (out & Hout & _ & Hlen & _ & Hsub); [vm_compute; done|].
  exists out. split; [exact Hout|]. split; [exact Hlen|exact Hsub].
Defined.

(** The scenario of the specification: four frames, count 2, stride 2. *)
Example uniform_sampling_four_two :
  uniform_sampling ["f0.jpg"; "f1.jpg"; "f2.jpg"; "f3.jpg"] 2
  = Ok ["f0.jpg"; "f2.jpg"].
Proof. reflexivity. Qed.

(** ** Invalid input *)

(** C6: each selector raises [ValueError] on an empty list of frames;
    [uniform_sampling] also on a count that is not positive and
    [motion_based_sampling] also on a negative threshold.  The outcome is the
    same whatever the image primitives would do, and nothing has been
    printed: the checks come before the first frame is touched. *)
Theorem invalid_input_raises `{Cv2} (frames : list string) (count : Z)
    (threshold : pyfloat) :
  uniform_sampling [] count = Raise (ValueError "Empty frames list provided") ∧
  scene_change_detection [] threshold
    = Raise (ValueError "Empty frames list provided") ∧
  motion_based_sampling_io [] threshold
    = (Raise (ValueError "Empty frames list provided"), []) ∧
  (count ≤ 0 →
     ∃ msg, uniform_sampling frames count = Raise (ValueError msg)) ∧
  (float_lt threshold (float_of_Z 0) = true →
     ∃ msg, motion_based_sampling_io frames threshold
            = (Raise (ValueError msg), [])).
Proof.
  repeat split; try reflexivity.
  - intros Hcount. unfold uniform_sampling.
    case_bool_decide; [by eexists|].
    destruct (Z.leb_spec count 0); [by eexists|lia].
  - intros Hneg. unfold motion_based_sampling_io.
    case_bool_decide; [by eexists|].
    rewrite Hneg. by eexists.
Qed.

Lemma invalid_input_raises_witness :
  (0 ≤ 0 ∧ float_lt (float_of_Z (-1)) (float_of_Z 0) = true) ∧
  (∃ msg, uniform_sampling ["f0.jpg"] 0 = Raise (ValueError msg)) ∧
  (∃ msg, @motion_based_sampling_io toy_cv2 ["f0.jpg"] (float_of_Z (-1))
          = (Raise (ValueError msg), [])).
Proof.
  split; [split; [lia|reflexivity]|].
  destruct (@invalid_input_raises toy_cv2 ["f0.jpg"] 0 (float_of_Z (-1)))
    as (_ & _ & _ & Hcount & Hthreshold).
  split; [apply Hcount; lia|apply Hthreshold; reflexivity].
Defined.

(** ** [scene_change_detection] *)

Section scene.
Context `{Cv2}.
Implicit Types (st : scene_state) (frames fs : list string).

Lemma bind_Ok {A B} (m : result A) (k : A → result B) (b : B) :
  m ≫= k = Ok b ↔ ∃ a, m = Ok a ∧ k a = Ok b.
Proof.
  destruct m as [a|e]; simpl; split.
  - intros Hk. by exists a.
  - by intros (a' & [= <-] & Hk).
  - done.
  - by intros (a' & [=] & _).
Qed.

Lemma scene_step_undecodable t st f :
  imread f IMREAD_COLOR = Ok None → scene_step t st f = Ok st.
Proof. intros Hf. unfold scene_step. by rewrite Hf. Qed.

(** An exception of the decoder leaves the turn. *)
Lemma scene_step_imread_raises t st f e :
  imread f IMREAD_COLOR = Raise e → scene_step t st f = Raise e.
Proof. intros Hf. unfold scene_step. by rewrite Hf. Qed.

(** What a successful turn on a decoded frame does. *)
Lemma scene_step_decoded t st st' f frame :
  imread f IMREAD_COLOR = Ok (Some frame) →
  scene_step t st f = Ok st' →
  ∃ h, color_hist frame = Ok h ∧ prev_hist st' = Some h ∧
    match prev_hist st with
    | None => selected_frames st' = selected_frames st
    | Some prev =>
        ∃ d, compareHist prev h HISTCMP_CHISQR = Ok d ∧
             selected_frames st' =
               if float_gt d t then selected_frames st ++ [f]
               else selected_frames st
    end.
Proof.
  intros Hf. unfold scene_step. rewrite Hf. simpl.
  destruct (color_hist frame) as [h|e]; simpl; [|done].
  destruct (prev_hist st) as [prev|]; simpl.
  - destruct (compareHist prev h HISTCMP_CHISQR) as [d|e] eqn:Hd; simpl;
      [|done].
    intros [= <-]. exists h. simpl. split; [done|]. split; [done|].
    by exists d.
  - intros [= <-]. exists h. simpl. done.
Qed.

Lemma decoded_frames_cons_Some f fs frame :
  imread f IMREAD_COLOR = Ok (Some frame) →
  decoded_frames IMREAD_COLOR (f :: fs) = f :: decoded_frames IMREAD_COLOR fs.
Proof.
  intros Hf. unfold decoded_frames.
  apply filter_cons_True. unfold decodable. by rewrite Hf.
Qed.

Lemma decoded_frames_cons_None f fs :
  imread f IMREAD_COLOR = Ok None →
  decoded_frames IMREAD_COLOR (f :: fs) = decoded_frames IMREAD_COLOR fs.
Proof.
  intros Hf. unfold decoded_frames.
  apply filter_cons_False. unfold decodable. by rewrite Hf.
Qed.

(** The scan does not see the frames whose decode fails. *)
Lemma scene_scan_filter t st fs :
  scene_scan t st fs = scene_scan t st (without_failed IMREAD_COLOR fs).
Proof.
  revert st. induction fs as [|f fs IH]; intros st; [done|].
  unfold without_failed.
  destruct (decode_fails IMREAD_COLOR f) eqn:Hfail.
  - rewrite filter_cons_False by (by rewrite Hfail). simpl.
    unfold decode_fails in Hfail.
    destruct (imread f IMREAD_COLOR) as [[frame|]|e] eqn:Hf; try done.
    rewrite scene_step_undecodable by done. simpl. apply IH.
  - rewrite filter_cons_True by done. simpl.
    destruct (scene_step t st f); simpl; [apply IH|done].
Qed.

(** The scan only appends, and what it appends are decoded frames in
    their order; the frame that finds no previous histogram is not one
    of them. *)
Lemma scene_scan_appended t st st' fs :
  scene_scan t st fs = Ok st' →
  ∃ app, selected_frames st' = selected_frames st ++ app ∧
    app `sublist_of`
      match prev_hist st with
      | None => tail (decoded_frames IMREAD_COLOR fs)
      | Some _ => decoded_frames IMREAD_COLOR fs
      end.
Proof.
  revert st. induction fs as [|f fs IH]; intros st; simpl.
  - intros [= <-]. exists []. rewrite app_nil_r. split; [done|].
    destruct (prev_hist st); constructor.
  - intros (st1 & Hstep & Hscan)%bind_Ok.
    destruct (imread f IMREAD_COLOR) as [[frame|]|e] eqn:Hf.
    + rewrite (decoded_frames_cons_Some _ _ _ Hf).
      destruct (scene_step_decoded _ _ _ _ _ Hf Hstep) as (h & _ & Hprev & Hsel).
      destruct (IH _ Hscan) as (app & Happ & Hsub).
      rewrite Hprev in Hsub. rewrite Happ.
      destruct (prev_hist st) as [prev|].
      * destruct Hsel as (d & _ & ->).
        destruct (float_gt d t).
        -- exists (f :: app). rewrite <- app_assoc. split; [done|].
           by apply sublist_skip.
        -- exists app. split; [done|]. by apply sublist_cons.
      * rewrite Hsel. exists app. split; done.
    + rewrite (decoded_frames_cons_None _ _ Hf).
      rewrite scene_step_undecodable in Hstep by done.
      injection Hstep as <-. by apply IH.
    + rewrite (scene_step_imread_raises _ _ _ _ Hf) in Hstep. done.
Qed.

(** When neither the decoder nor a histogram primitive raises, the scan
    runs to its end. *)
Lemma scene_scan_total t st fs :
  forallb (λ f, match imread f IMREAD_COLOR with
                | Ok (Some frame) => is_ok (color_hist frame)
                | Ok None => true
                | Raise _ => false
                end) fs = true →
  comparable_in_turn (option_list (prev_hist st) ++ omap frame_hist fs)
  = true →
  ∃ st', scene_scan t st fs = Ok st'.
Proof.
  revert st. induction fs as [|f fs IH]; intros st Hread Hcmp.
  - by exists st.
  - simpl in Hread. apply andb_prop in Hread as [Hf Hread].
    simpl scene_scan. unfold scene_step.
    simpl omap in Hcmp. unfold frame_hist in Hcmp at 1.
    destruct (imread f IMREAD_COLOR) as [[frame|]|e]; [| |done].
    + simpl. destruct (color_hist frame) as [h|e]; [|done]. simpl.
      destruct (prev_hist st) as [prev|]; simpl in Hcmp |- *.
      * apply andb_prop in Hcmp as [Hd Hcmp].
        destruct (compareHist prev h HISTCMP_CHISQR) as [d|e]; [|done].
        simpl. by apply IH.
      * by apply IH.
    + simpl. by apply IH.
Qed.

Lemma scene_change_detection_total t frame0 rest :
  scene_faultless (frame0 :: rest) = true →
  ∃ out, scene_change_detection (frame0 :: rest) t = Ok out.
Proof.
  unfold scene_faultless. intros [Hread Hcmp]%andb_prop.
  unfold scene_change_detection.
  destruct (scene_scan_total t
              {| selected_frames := [frame0]; prev_hist := None |}
              (frame0 :: rest) Hread Hcmp) as (st' & Hst').
  rewrite Hst'. simpl. by eexists.
Qed.

Lemma scene_change_detection_appended t frame0 rest out :
  scene_change_detection (frame0 :: rest) t = Ok out →
  ∃ app, out = frame0 :: app ∧
         app `sublist_of` tail (decoded_frames IMREAD_COLOR (frame0 :: rest)).
Proof.
  unfold scene_change_detection.
  intros (st' & Hscan & [= <-])%bind_Ok.
  destruct (scene_scan_appended _ _ _ _ Hscan) as (app & Happ & Hsub).
  exists app. split; done.
Qed.

End scene.

(** Two scans of the same frames under two thresholds stay in step: they
    raise the same exception or reach the same previous histogram. *)
Lemma scene_scan_lockstep `{Cv2} (t1 t2 : pyfloat) (st1 st2 : scene_state)
    (fs : list string) :
  prev_hist st1 = prev_hist st2 →
  match scene_scan t1 st1 fs, scene_scan t2 st2 fs with
  | Ok s1, Ok s2 => prev_hist s1 = prev_hist s2
  | Raise e1, Raise e2 => e1 = e2
  | _, _ => False
  end.
Proof.
  revert st1 st2. induction fs as [|f fs IH]; intros st1 st2 Hprev; [done|].
  simpl. unfold scene_step.
  destruct (imread f IMREAD_COLOR) as [[frame|]|e]; simpl;
    [|by apply IH|done].
  destruct (color_hist frame) as [h|e]; simpl; [|done].
  rewrite <- Hprev.
  destruct (prev_hist st1) as [prev|]; simpl; [|by apply IH].
  destruct (compareHist prev h HISTCMP_CHISQR) as [d|e]; simpl; [|done].
  by apply IH.
Qed.

(** Under a larger threshold the scan selects a subsequence of what it
    selects under a smaller one. *)
Lemma scene_scan_monotone `{Cv2} (t1 t2 : pyfloat) (st1 st2 : scene_state)
    (fs : list string) :
  float_lt t1 t2 = true →
  prev_hist st1 = prev_hist st2 →
  selected_frames st2 `sublist_of` selected_frames st1 →
  match scene_scan t1 st1 fs, scene_scan t2 st2 fs with
  | Ok s1, Ok s2 => selected_frames s2 `sublist_of` selected_frames s1
  | Raise e1, Raise e2 => e1 = e2
  | _, _ => False
  end.
Proof.
  intros Hlt. revert st1 st2.
  induction fs as [|f fs IH]; intros st1 st2 Hprev Hsel; [done|].
  simpl. unfold scene_step.
  destruct (imread f IMREAD_COLOR) as [[frame|]|e]; simpl;
    [|by apply IH|done].
  destruct (color_hist frame) as [h|e]; simpl; [|done].
  rewrite <- Hprev.
  destruct (prev_hist st1) as [prev|]; simpl; [|by apply IH].
  destruct (compareHist prev h HISTCMP_CHISQR) as [d|e]; simpl; [|done].
  apply IH; simpl; [done|].
  destruct (float_gt d t2) eqn:H2.
  - rewrite (float_gt_weaken _ _ _ Hlt H2). by apply sublist_app.
  - destruct (float_gt d t1); [by apply sublist_inserts_r|done].
Qed.

(** C4: with the decoder and the histogram primitives fixed, a larger
    threshold selects a subsequence of what a smaller threshold selects, so
    raising the threshold never adds a frame; both calls raise together,
    and then the same exception. *)
Theorem scene_threshold_monotone `{Cv2} (frames : list string)
    (threshold1 threshold2 : pyfloat) :
  float_lt threshold1 threshold2 = true →
  match scene_change_detection frames threshold1,
        scene_change_detection frames threshold2 with
  | Ok out1, Ok out2 =>
      out2 `sublist_of` out1 ∧ (length out2 ≤ length out1)%nat
  | Raise e1, Raise e2 => e1 = e2
  | _, _ => False
  end.
Proof.
  intros Hlt. destruct frames as [|frame0 rest]; [done|].
  unfold scene_change_detection.
  pose proof (scene_scan_monotone threshold1 threshold2
                {| selected_frames := [frame0]; prev_hist := None |}
                {| selected_frames := [frame0]; prev_hist := None |}
                (frame0 :: rest) Hlt eq_refl (reflexivity _)) as Hscan.
  destruct (scene_scan threshold1 _ (frame0 :: rest)) as [s1|e1],
           (scene_scan threshold2 _ (frame0 :: rest)) as [s2|e2];
    simpl; try done.
  split; [done|]. by apply sublist_length.
Qed.

Lemma scene_threshold_monotone_witness :
  float_lt (FFinite (1 # 2)) (float_of_Z 30) = true ∧
  (["f0.jpg"; "f2.jpg"] `sublist_of` ["f0.jpg"; "f2.jpg"; "f3.jpg"]
   ∧ (2 ≤ 3)%nat).
Proof.
  split; [reflexivity|].
  exact (@scene_threshold_monotone toy_cv2
           ["f0.jpg"; "f1.jpg"; "f2.jpg"; "f3.jpg"]
           (FFinite (1 # 2)) (float_of_Z 30) eq_refl).
Defined.

(** C10: on a non-empty list the output of [scene_change_detection] starts
    with [frames[0]] under every threshold and whatever the decoder answers
    for that frame, the seed being put there before the scan; and the call
    does return an output when neither the decoder nor a histogram
    primitive raises. *)
Theorem scene_first_reference_heads_output `{Cv2} (frame0 : string)
    (rest : list string) (threshold : pyfloat) :
  (∀ out, scene_change_detection (frame0 :: rest) threshold = Ok out →
          out ≠ [] ∧ head out = Some frame0) ∧
  (scene_faultless (frame0 :: rest) = true →
   ∃ app, scene_change_detection (frame0 :: rest) threshold
          = Ok (frame0 :: app)).
Proof.
  split.
  - intros out (app & -> & _)%scene_change_detection_appended. done.
  - intros Hfree.
    destruct (scene_change_detection_total threshold _ _ Hfree) as (out & Hout).
    destruct (scene_change_detection_appended _ _ _ _ Hout) as (app & -> & _).
    by exists app.
Qed.

Lemma scene_first_reference_heads_output_witness :
  (scene_faultless (H := toy_cv2) ["corrupt.jpg"; "f1.jpg"; "f2.jpg"] = true
   ∧ imread (Cv2 := toy_cv2) "corrupt.jpg" IMREAD_COLOR = Ok None) ∧
  ∃ app, scene_change_detection (H := toy_cv2)
           ["corrupt.jpg"; "f1.jpg"; "f2.jpg"] (float_of_Z 30)
         = Ok ("corrupt.jpg" :: app).
Proof.
  split; [split; reflexivity|].
  apply (@scene_first_reference_heads_output toy_cv2).
  reflexivity.
Defined.

(** C1, as stated, fails: when the first frame is unreadable and the second
    decodes, the output is the unreadable first frame alone, without the
    first decoded frame. *)
Lemma scene_first_decoded_counterexample :
  ¬ first_decoded_selected_failed_absent (H := toy_cv2)
      ["corrupt.jpg"; "f1.jpg"] (float_of_Z 30).
Proof.
  intros Hclaim.
  destruct (Hclaim ["corrupt.jpg"] eq_refl) as [Hfirst _].
  specialize (Hfirst "f1.jpg" eq_refl).
  apply list_elem_of_singleton in Hfirst. discriminate Hfirst.
Qed.

(** The run behind it. *)
Example scene_unreadable_first_frame :
  scene_change_detection (H := toy_cv2) ["corrupt.jpg"; "f1.jpg"]
    (float_of_Z 30) = Ok ["corrupt.jpg"]
  ∧ imread (Cv2 := toy_cv2) "corrupt.jpg" IMREAD_COLOR = Ok None
  ∧ decoded_frames (H := toy_cv2) IMREAD_COLOR ["corrupt.jpg"; "f1.jpg"]
    = ["f1.jpg"].
Proof. repeat split. Qed.

(** C1, amended: on a non-empty list [frames[0]] heads the output whether
    or not it decodes.  A frame whose decode fails, [imread] returning
    [None], is skipped by the scan: its turn changes neither the selection
    nor the previous histogram, and the scan gives what it gives on the
    list without these frames.  What the scan appends are decoded frames
    that come after the first decoded one, in their order; so the first
    decoded frame is sure to be in the output when it is [frames[0]].  The
    call returns when neither the decoder nor a histogram primitive
    raises. *)
Theorem scene_seed_and_decode_skips `{Cv2} (frame0 : string)
    (rest : list string) (threshold : pyfloat) :
  (∀ st f, imread f IMREAD_COLOR = Ok None →
           scene_step threshold st f = Ok st) ∧
  (∀ st fs, scene_scan threshold st fs
            = scene_scan threshold st (without_failed IMREAD_COLOR fs)) ∧
  (∀ out, scene_change_detection (frame0 :: rest) threshold = Ok out →
     ∃ app, out = frame0 :: app ∧
       app `sublist_of` tail (decoded_frames IMREAD_COLOR (frame0 :: rest))) ∧
  (scene_faultless (frame0 :: rest) = true →
     ∃ out, scene_change_detection (frame0 :: rest) threshold = Ok out
            ∧ frame0 ∈ out).
Proof.
  split; [|split; [|split]].
  - intros st f Hf. by apply scene_step_undecodable.
  - intros st fs. apply scene_scan_filter.
  - intros out Hout. by apply (scene_change_detection_appended threshold).
  - intros Hfree.
    destruct (scene_change_detection_total threshold _ _ Hfree) as (out & Hout).
    destruct (scene_change_detection_appended _ _ _ _ Hout) as (app & -> & _).
    eexists. split; [done|]. left.
Qed.

Lemma scene_seed_and_decode_skips_witness :
  (imread (Cv2 := toy_cv2) "corrupt.jpg" IMREAD_COLOR = Ok None ∧
   scene_faultless (H := toy_cv2) ["corrupt.jpg"; "f1.jpg"; "f2.jpg"] = true) ∧
  scene_step (H := toy_cv2) (float_of_Z 30)
    {| selected_frames := ["f0.jpg"]; prev_hist := Some [FFinite 10] |}
    "corrupt.jpg"
  = Ok {| selected_frames := ["f0.jpg"]; prev_hist := Some [FFinite 10] |} ∧
  ∃ out, scene_change_detection (H := toy_cv2)
           ["corrupt.jpg"; "f1.jpg"; "f2.jpg"] (float_of_Z 30) = Ok out
         ∧ "corrupt.jpg" ∈ out.
Proof.
  split; [split; reflexivity|].
  destruct (@scene_seed_and_decode_skips toy_cv2 "corrupt.jpg"
              ["f1.jpg"; "f2.jpg"] (float_of_Z 30))
    as (Hskip & _ & _ & Htotal).
  split; [apply Hskip; reflexivity|apply Htotal; reflexivity].
Defined.

(** C8, as stated, fails: a negative threshold is accepted. *)
Lemma scene_negative_threshold_counterexample :
  ¬ scene_rejects_negative_threshold (H := toy_cv2).
Proof.
  intros Hclaim.
  destruct (Hclaim ["f0.jpg"] (float_of_Z (-1)) eq_refl) as (msg & Hraise).
  discriminate Hraise.
Qed.

(** C8, amended: [scene_change_detection] does not look at the sign of the
    threshold.  With a negative threshold it raises [ValueError] on an empty
    list, like with any other; on a non-empty list it raises only what the
    scan raises under any other threshold, and when neither the decoder nor
    a histogram primitive raises it returns an output headed by
    [frames[0]]. *)
Theorem scene_accepts_negative_threshold `{Cv2} (frame0 : string)
    (rest : list string) (threshold : pyfloat) :
  float_lt threshold (float_of_Z 0) = true →
  scene_change_detection [] threshold
    = Raise (ValueError "Empty frames list provided") ∧
  (∀ threshold' e,
     scene_change_detection (frame0 :: rest) threshold = Raise e →
     scene_change_detection (frame0 :: rest) threshold' = Raise e) ∧
  (scene_faultless (frame0 :: rest) = true →
   ∃ app, scene_change_detection (frame0 :: rest) threshold
          = Ok (frame0 :: app)).
Proof.
  intros _. split; [done|]. split.
  - intros threshold' e. unfold scene_change_detection.
    pose proof (scene_scan_lockstep threshold threshold'
                  {| selected_frames := [frame0]; prev_hist := None |}
                  {| selected_frames := [frame0]; prev_hist := None |}
                  (frame0 :: rest) eq_refl) as Hstep.
    destruct (scene_scan threshold _ (frame0 :: rest)) as [s1|e1],
             (scene_scan threshold' _ (frame0 :: rest)) as [s2|e2];
      simpl; try done.
    by intros [= <-]; subst.
  - intros Hfree.
    destruct (scene_change_detection_total threshold _ _ Hfree) as (out & Hout).
    destruct (scene_change_detection_appended _ _ _ _ Hout) as (app & -> & _).
    by exists app.
Qed.

Lemma scene_accepts_negative_threshold_witness :
  (float_lt (float_of_Z (-1)) (float_of_Z 0) = true ∧
   scene_faultless (H := toy_cv2) ["f0.jpg"; "f2.jpg"] = true) ∧
  ∃ app, scene_change_detection (H := toy_cv2) ["f0.jpg"; "f2.jpg"]
           (float_of_Z (-1)) = Ok ("f0.jpg" :: app).
Proof.
  split; [split; reflexivity|].
  destruct (@scene_accepts_negative_threshold toy_cv2 "f0.jpg" ["f2.jpg"]
              (float_of_Z (-1)) eq_refl) as (_ & _ & Htotal).
  apply Htotal. reflexivity.
Defined.

(** ** [motion_based_sampling] *)

(** The loop variables after one turn, case by case. *)
Lemma motion_step_vars `{Cv2} (t : pyfloat) (st : motion_state * list string)
    (f : string) :
  (motion_step t st f).1 =
    match decoded_gray f with
    | None => st.1
    | Some frame =>
        match prev_frame st.1 with
        | None => {| m_selected := m_selected st.1; prev_frame := Some frame |}
        | Some prev =>
            if bool_decide (shape prev ≠ shape frame) then st.1
            else
              match calcOpticalFlowFarneback prev frame farneback_config with
              | Raise _ => st.1
              | Ok flow =>
                  match norm_mean flow with
                  | Raise _ => st.1
                  | Ok m =>
                      {| m_selected := if float_gt m t
                                       then m_selected st.1 ++ [f]
                                       else m_selected st.1;
                         prev_frame := Some frame |}
                  end
              end
        end
    end.
Proof.
  unfold motion_step, motion_body, decoded_gray.
  destruct (imread f IMREAD_GRAYSCALE) as [[frame|]|e]; [|done|done].
  simpl.
  destruct (prev_frame st.1) as [prev|]; [|done].
  case_bool_decide; [done|].
  destruct (calcOpticalFlowFarneback prev frame farneback_config) as [flow|e];
    simpl; [|done].
  destruct (norm_mean flow) as [m|e]; simpl; done.
Qed.

(** A decoded frame of another shape than the previous raster: the turn
    changes nothing. *)
Lemma motion_step_mismatch `{Cv2} (t : pyfloat)
    (st : motion_state * list string) (f : string) (frame prev : ndarray) :
  imread f IMREAD_GRAYSCALE = Ok (Some frame) →
  prev_frame st.1 = Some prev →
  shape prev ≠ shape frame →
  motion_step t st f = st.
Proof.
  intros Hf Hp Hshape. unfold motion_step, motion_body.
  rewrite Hf. simpl. rewrite Hp.
  rewrite bool_decide_eq_true_2 by done. by destruct st.
Qed.

Lemma motion_scan_cons `{Cv2} (t : pyfloat) (st : motion_state * list string)
    (f : string) (fs : list string) :
  motion_scan t st (f :: fs) = motion_scan t (motion_step t st f) fs.
Proof. done. Qed.

Lemma motion_scan_snoc `{Cv2} (t : pyfloat) (st : motion_state * list string)
    (f : string) (fs : list string) :
  motion_scan t st (fs ++ [f]) = motion_step t (motion_scan t st fs) f.
Proof. unfold motion_scan. by rewrite foldl_app. Qed.

Lemma sublist_tail {A} (l : list A) : tail l `sublist_of` l.
Proof. destruct l; [done|]. by apply sublist_cons. Qed.

(** The scan only appends, in the order of the frames, and never the frame
    that finds no previous raster. *)
Lemma motion_scan_appended `{Cv2} (t : pyfloat)
    (st : motion_state * list string) (fs : list string) :
  ∃ app, m_selected (motion_scan t st fs).1 = m_selected st.1 ++ app ∧
    app `sublist_of`
      match prev_frame st.1 with
      | None => tail fs
      | Some _ => fs
      end.
Proof.
  revert st. induction fs as [|f fs IH]; intros st.
  - exists []. simpl. rewrite app_nil_r. split; [done|].
    destruct (prev_frame st.1); constructor.
  - rewrite motion_scan_cons.
    destruct (IH (motion_step t st f)) as (app & Happ & Hsub).
    rewrite Happ. clear Happ IH.
    rewrite motion_step_vars in *.
    assert (∀ app : list string,
              app `sublist_of`
                match prev_frame st.1 with None => tail fs | Some _ => fs end →
              app `sublist_of`
                match prev_frame st.1 with
                | None => tail (f :: fs)
                | Some _ => f :: fs
                end) as Hskip.
    { intros app'. destruct (prev_frame st.1); simpl; intros Hs.
      - by apply sublist_cons.
      - etrans; [exact Hs|apply sublist_tail]. }
    destruct (decoded_gray f) as [frame|]; [|eauto].
    destruct (prev_frame st.1) as [prev|] eqn:Hprev; [|by exists app].
    case_bool_decide.
    { rewrite Hprev in Hsub. exists app. split; [done|]. by apply sublist_cons. }
    destruct (calcOpticalFlowFarneback prev frame farneback_config) as [flow|e].
    2:{ rewrite Hprev in Hsub. exists app. split; [done|]. by apply sublist_cons. }
    destruct (norm_mean flow) as [m|e].
    2:{ rewrite Hprev in Hsub. exists app. split; [done|]. by apply sublist_cons. }
    simpl in *. destruct (float_gt m t).
    + exists (f :: app). rewrite <- app_assoc. split; [done|].
      by apply sublist_skip.
    + exists app. split; [done|]. by apply sublist_cons.
Qed.

Lemma first_decoded_cons `{Cv2} (f : string) (fs : list string) :
  first_decoded (f :: fs) =
    match decoded_gray f with
    | Some frame => Some frame
    | None => first_decoded fs
    end.
Proof.
  unfold first_decoded. simpl.
  by destruct (decoded_gray f).
Qed.

Lemma first_decoded_app `{Cv2} (pre post : list string) :
  first_decoded (pre ++ post) =
    match first_decoded pre with
    | Some frame => Some frame
    | None => first_decoded post
    end.
Proof.
  induction pre as [|f pre IH]; [done|].
  rewrite <- app_comm_cons, !first_decoded_cons.
  by destruct (decoded_gray f).
Qed.

Lemma decoded_gray_Some `{Cv2} (f : string) (frame : ndarray) :
  decoded_gray f = Some frame ↔ imread f IMREAD_GRAYSCALE = Ok (Some frame).
Proof.
  unfold decoded_gray.
  destruct (imread f IMREAD_GRAYSCALE) as [read|e]; split; congruence.
Qed.

(** The shape of the previous raster, once set, stays; and only frames of
    that shape are selected. *)
Lemma motion_scan_shape `{Cv2} (t : pyfloat) (s : list nat)
    (st : motion_state * list string) (fs : list string) :
  (∀ p, prev_frame st.1 = Some p → shape p = s) →
  (prev_frame st.1 = None → ∀ r, first_decoded fs = Some r → shape r = s) →
  Forall (decodes_with_shape s) (m_selected st.1) →
  (∀ p, prev_frame (motion_scan t st fs).1 = Some p → shape p = s) ∧
  (prev_frame (motion_scan t st fs).1 = None ↔
     prev_frame st.1 = None ∧ first_decoded fs = None) ∧
  Forall (decodes_with_shape s) (m_selected (motion_scan t st fs).1).
Proof.
  revert st. induction fs as [|f fs IH]; intros st Hprev Hfirst Hsel.
  - simpl. split; [done|]. split; [|done]. unfold first_decoded. simpl.
    split; [done|]. by intros [? _].
  - rewrite motion_scan_cons, first_decoded_cons.
    rewrite first_decoded_cons in Hfirst.
    specialize (IH (motion_step t st f)).
    rewrite motion_step_vars in IH.
    destruct (decoded_gray f) as [frame|] eqn:Hf.
    2:{ destruct IH as (IH1 & IH2 & IH3); done. }
    destruct (prev_frame st.1) as [prev|] eqn:Hp.
    2:{ destruct IH as (IH1 & IH2 & IH3); simpl.
        - intros p [= <-]. by eapply Hfirst.
        - done.
        - done.
        - split; [done|]. split; [|done].
          rewrite IH2. split; [by intros [? _]|by intros [_ ?]]. }
    assert (shape prev = s) as Hs by by apply Hprev.
    assert ((∀ p, prev_frame (motion_scan t (motion_step t st f) fs).1 = Some p
                  → shape p = s) ∧
            (prev_frame (motion_scan t (motion_step t st f) fs).1 ≠ None) ∧
            Forall (decodes_with_shape s)
              (m_selected (motion_scan t (motion_step t st f) fs).1)) as Hgoal.
    { case_bool_decide as Hshape.
      { rewrite Hp in IH. destruct IH as (IH1 & IH2 & IH3); [done..|].
        split; [done|]. split; [|done]. rewrite IH2. by intros [? _]. }
      destruct (calcOpticalFlowFarneback prev frame farneback_config)
        as [flow|e].
      2:{ rewrite Hp in IH. destruct IH as (IH1 & IH2 & IH3); [done..|].
          split; [done|]. split; [|done]. rewrite IH2. by intros [? _]. }
      destruct (norm_mean flow) as [m|e].
      2:{ rewrite Hp in IH. destruct IH as (IH1 & IH2 & IH3); [done..|].
          split; [done|]. split; [|done]. rewrite IH2. by intros [? _]. }
      simpl in IH. destruct IH as (IH1 & IH2 & IH3).
      - intros p [= <-]. congruence.
      - done.
      - destruct (float_gt m t); [|done].
        apply Forall_app. split; [done|].
        apply Forall_singleton. exists frame.
        split; [by apply decoded_gray_Some|congruence].
      - split; [done|]. split; [|done]. rewrite IH2. by intros [? _]. }
    destruct Hgoal as (G1 & G2 & G3).
    split; [done|]. split; [|done].
    split; [done|]. by intros [? _].
Qed.

Lemma motion_based_sampling_valid `{Cv2} (frames : list string) (t : pyfloat) :
  frames ≠ [] → float_lt t (float_of_Z 0) = false →
  motion_based_sampling_io frames t
  = (Ok (m_selected (motion_scan t motion_init frames).1),
     (motion_scan t motion_init frames).2).
Proof.
  intros Hne Ht. unfold motion_based_sampling_io.
  rewrite bool_decide_eq_false_2 by done. by rewrite Ht.
Qed.

(** C7: on a non-empty list and a threshold that is not negative,
    [motion_based_sampling] returns a subsequence of the frames after the
    first: the frame at the first position is never selected, the order of
    the input is kept, and every reference of the output is one of the
    input. *)
Theorem motion_never_selects_first `{Cv2} (frames : list string)
    (threshold : pyfloat) :
  frames ≠ [] → float_lt threshold (float_of_Z 0) = false →
  ∃ out, motion_based_sampling frames threshold = Ok out ∧
    out `sublist_of` tail frames ∧
    out `sublist_of` frames ∧
    (∀ f, f ∈ out → f ∈ frames) ∧
    (NoDup frames → ∀ frame0, head frames = Some frame0 → frame0 ∉ out).
Proof.
  intros Hne Ht. unfold motion_based_sampling.
  rewrite motion_based_sampling_valid by done. simpl.
  destruct (motion_scan_appended threshold motion_init frames)
    as (app & Happ & Hsub).
  simpl in Happ, Hsub. rewrite Happ.
  eexists. split; [done|].
  assert (app `sublist_of` frames) as Hsub'.
  { etrans; [exact Hsub|apply sublist_tail]. }
  split; [done|]. split; [done|]. split.
  - intros f Hf. by eapply sublist_subseteq.
  - intros Hnd frame0 Hhead Hin.
    destruct frames as [|f rest]; [done|]. simpl in *.
    injection Hhead as ->.
    apply NoDup_cons in Hnd as [Hnotin _]. apply Hnotin.
    by eapply sublist_subseteq.
Qed.

Lemma motion_never_selects_first_witness :
  (["f0.jpg"; "f1.jpg"; "f2.jpg"; "f3.jpg"] ≠ [] ∧
   float_lt (float_of_Z 0) (float_of_Z 0) = false) ∧
  ∃ out, motion_based_sampling (H := toy_cv2)
           ["f0.jpg"; "f1.jpg"; "f2.jpg"; "f3.jpg"] (float_of_Z 0) = Ok out ∧
         out `sublist_of` ["f1.jpg"; "f2.jpg"; "f3.jpg"].
Proof.
  split; [split; [done|reflexivity]|].
  destruct (@motion_never_selects_first toy_cv2
              ["f0.jpg"; "f1.jpg"; "f2.jpg"; "f3.jpg"] (float_of_Z 0))
    as (out & Hout & Htail & _); [done|reflexivity|].
  exists out. split; [exact Hout|exact Htail].
Defined.

(** C2, as stated, fails: after a 4x4 frame, a decoded 2x2 frame does not
    become the previous raster. *)
Lemma motion_mismatch_counterexample :
  ¬ mismatch_updates_prev_state (H := toy_cv2) (float_of_Z 0).
Proof.
  intros Hclaim.
  assert (shape (Cv2 := toy_cv2) ([4; 4]%nat, 10)
          ≠ shape (Cv2 := toy_cv2) ([2; 2]%nat, 99)) as Hshape by discriminate.
  specialize (Hclaim (motion_scan (float_of_Z 0) motion_init ["f0.jpg"])
                "small.jpg" ([2; 2]%nat, 99) ([4; 4]%nat, 10)
                eq_refl eq_refl Hshape).
  vm_compute in Hclaim. discriminate Hclaim.
Qed.

(** The run behind it: the 2x2 frame is passed over and the next 4x4 frame
    is compared with the 4x4 raster stored before. *)
Example motion_mismatch_run :
  prev_frame (motion_scan (H := toy_cv2) (float_of_Z 0) motion_init
                ["f0.jpg"; "small.jpg"]).1
  = Some ([4; 4]%nat, 10).
Proof. reflexivity. Qed.

(** C2, amended: when the current frame decodes but its dimensions differ
    from those of the stored previous raster, the whole turn is skipped
    without failing the scan: nothing is compared, appended or printed, and
    the previous raster stays.  The current raster becomes the previous one
    when no previous raster is stored, and, whatever the selection, when the
    dimensions match and the flow magnitude is computed. *)
Theorem motion_mismatch_skips_turn `{Cv2} (threshold : pyfloat)
    (st : motion_state * list string) (frame_path : string) (frame : ndarray) :
  imread frame_path IMREAD_GRAYSCALE = Ok (Some frame) →
  match prev_frame st.1 with
  | None =>
      motion_step threshold st frame_path
      = ({| m_selected := m_selected st.1; prev_frame := Some frame |}, st.2)
  | Some prev =>
      (shape prev ≠ shape frame → motion_step threshold st frame_path = st) ∧
      (shape prev = shape frame →
       ∀ flow m,
         calcOpticalFlowFarneback prev frame farneback_config = Ok flow →
         norm_mean flow = Ok m →
         motion_step threshold st frame_path
         = ({| m_selected := if float_gt m threshold
                             then m_selected st.1 ++ [frame_path]
                             else m_selected st.1;
               prev_frame := Some frame |}, st.2))
  end.
Proof.
  intros Hf. unfold motion_step, motion_body. rewrite Hf.
  destruct st as [vars out]. simpl.
  destruct (prev_frame vars) as [prev|]; [|done].
  split.
  - intros Hshape. by rewrite bool_decide_eq_true_2.
  - intros Hshape flow m Hflow Hm.
    rewrite bool_decide_eq_false_2 by (by intros ?).
    rewrite Hflow. simpl. rewrite Hm. done.
Qed.

Lemma motion_mismatch_skips_turn_witness :
  (imread (Cv2 := toy_cv2) "small.jpg" IMREAD_GRAYSCALE
   = Ok (Some ([2; 2]%nat, 99))
   ∧ [4; 4]%nat ≠ [2; 2]%nat) ∧
  motion_step (H := toy_cv2) (float_of_Z 0)
    (motion_scan (float_of_Z 0) motion_init ["f0.jpg"]) "small.jpg"
  = motion_scan (float_of_Z 0) motion_init ["f0.jpg"].
Proof.
  split; [split; [reflexivity|discriminate]|].
  apply (@motion_mismatch_skips_turn toy_cv2 (float_of_Z 0)
           (motion_scan (float_of_Z 0) motion_init ["f0.jpg"])
           "small.jpg" ([2; 2]%nat, 99) eq_refl).
  discriminate.
Defined.

(** C9: the dimensions of the previous raster never change once it is set.
    A decoded frame of another shape leaves the state as it is; the previous
    raster is unset exactly as long as no frame has decoded, is first set to
    the first decoded frame, and after every prefix of the scan has the
    shape of that frame; every frame of the output decodes to that shape. *)
Theorem motion_prev_shape_fixed `{Cv2} (frames : list string)
    (threshold : pyfloat) (r0 : ndarray) :
  first_decoded frames = Some r0 →
  (∀ st f frame prev,
     imread f IMREAD_GRAYSCALE = Ok (Some frame) →
     prev_frame st.1 = Some prev →
     shape prev ≠ shape frame → motion_step threshold st f = st) ∧
  (∀ pre post, frames = pre ++ post →
     let st := motion_scan threshold motion_init pre in
     (∀ p, prev_frame st.1 = Some p → shape p = shape r0) ∧
     (prev_frame st.1 = None ↔ first_decoded pre = None) ∧
     (first_decoded pre = None → first_decoded post = Some r0 →
      ∀ f rest, post = f :: rest →
      imread f IMREAD_GRAYSCALE = Ok (Some r0) →
      prev_frame (motion_scan threshold motion_init (pre ++ [f])).1 = Some r0) ∧
     Forall (decodes_with_shape (shape r0)) (m_selected st.1)) ∧
  (∀ out, motion_based_sampling frames threshold = Ok out →
          Forall (decodes_with_shape (shape r0)) out).
Proof.
  intros Hfirst.
  assert (∀ pre post, frames = pre ++ post →
            let st := motion_scan threshold motion_init pre in
            (∀ p, prev_frame st.1 = Some p → shape p = shape r0) ∧
            (prev_frame st.1 = None ↔ first_decoded pre = None) ∧
            Forall (decodes_with_shape (shape r0)) (m_selected st.1)) as Hpre.
  { intros pre post -> st.
    destruct (motion_scan_shape threshold (shape r0) motion_init pre)
      as (H1 & H2 & H3); [done| |done|].
    - intros _ r Hr. rewrite first_decoded_app, Hr in Hfirst. congruence.
    - split; [done|]. split; [|done].
      unfold st. rewrite H2. simpl. split; [by intros [_ ?]|done]. }
  split; [|split].
  - intros st f frame prev Hf Hp Hshape. by eapply motion_step_mismatch.
  - intros pre post Heq st.
    destruct (Hpre pre post Heq) as (H1 & H2 & H3).
    split; [done|]. split; [done|]. split; [|done].
    intros Hnone _ f rest -> Hf%decoded_gray_Some.
    rewrite motion_scan_snoc, motion_step_vars, Hf.
    apply H2 in Hnone. unfold st in Hnone. by rewrite Hnone.
  - intros out. unfold motion_based_sampling, motion_based_sampling_io.
    case_bool_decide; [done|].
    destruct (float_lt threshold (float_of_Z 0)); [done|].
    simpl. intros [= <-].
    destruct (Hpre frames [] (eq_sym (app_nil_r _))) as (_ & _ & H3). done.
Qed.

Lemma motion_prev_shape_fixed_witness :
  first_decoded (H := toy_cv2) ["corrupt.jpg"; "f0.jpg"; "small.jpg"; "f2.jpg"]
  = Some ([4; 4]%nat, 10) ∧
  ∀ out, motion_based_sampling (H := toy_cv2)
           ["corrupt.jpg"; "f0.jpg"; "small.jpg"; "f2.jpg"] (float_of_Z 0)
         = Ok out →
         Forall (decodes_with_shape (H := toy_cv2) [4; 4]%nat) out.
Proof.
  split; [reflexivity|].
  apply (@motion_prev_shape_fixed toy_cv2
           ["corrupt.jpg"; "f0.jpg"; "small.jpg"; "f2.jpg"] (float_of_Z 0)
           ([4; 4]%nat, 10) eq_refl).
Defined.

(** ** Which failures reach the caller *)

(** C5: the fault of one frame must not reach the caller.  In
    [scene_change_detection] it does: on the frames f0.jpg, huge.jpg,
    f2.jpg the exception that [imread] raises on huge.jpg leaves the
    function, which is not a [ValueError], and f2.jpg is never looked at;
    [motion_based_sampling] on the same frames prints the error, passes
    over huge.jpg and goes on to select f2.jpg. *)
Theorem scene_decoder_fault_surfaces :
  scene_change_detection (H := toy_cv2) ["f0.jpg"; "huge.jpg"; "f2.jpg"]
    (float_of_Z 30)
  = Raise (cv2_error "imread: image is too large") ∧
  motion_based_sampling_io (H := toy_cv2) ["f0.jpg"; "huge.jpg"; "f2.jpg"]
    (float_of_Z 30)
  = (Ok ["f2.jpg"],
     ["Error processing frame huge.jpg: imread: image is too large"]) ∧
  ¬ only_invalid_input_surfaces (H := toy_cv2).
Proof.
  split; [reflexivity|]. split; [reflexivity|].
  intros Hclaim.
  specialize (Hclaim ["f0.jpg"; "huge.jpg"; "f2.jpg"] 1 (float_of_Z 30)
                (cv2_error "imread: image is too large")).
  discriminate Hclaim. right. left. reflexivity.
Qed.

(** An exception of the decoder ends the scan of [scene_change_detection]
    at that frame. *)
Lemma scene_scan_imread_raises `{Cv2} (t : pyfloat) (st : scene_state)
    (f : string) (rest : list string) (e : exn) :
  imread f IMREAD_COLOR = Raise e → scene_scan t st (f :: rest) = Raise e.
Proof. intros Hf. simpl. unfold scene_step. by rewrite Hf. Qed.

(** X19: [uniform_sampling] and [motion_based_sampling] raise nothing but
    [ValueError], the latter only on an empty list or a negative threshold:
    on any other input it returns after the turn of every frame.  In the
    turn of a frame, a decode failure and a mismatch of dimensions change
    nothing, and an exception, of the decoder or of the flow computation,
    is printed and leaves the loop variables as they were. *)
Theorem motion_absorbs_faults `{Cv2} (frames : list string)
    (count : Z) (threshold : pyfloat) :
  (∀ e, uniform_sampling frames count = Raise e → is_ValueError e = true) ∧
  (∀ e, motion_based_sampling frames threshold = Raise e →
        is_ValueError e = true ∧
        (frames = [] ∨ float_lt threshold (float_of_Z 0) = true)) ∧
  (frames ≠ [] → float_lt threshold (float_of_Z 0) = false →
   motion_based_sampling frames threshold
   = Ok (m_selected (foldl (motion_step threshold) motion_init frames).1)) ∧
  (∀ st f, imread f IMREAD_GRAYSCALE = Ok None →
           motion_step threshold st f = st) ∧
  (∀ st f frame prev,
     imread f IMREAD_GRAYSCALE = Ok (Some frame) →
     prev_frame st.1 = Some prev →
     shape prev ≠ shape frame → motion_step threshold st f = st) ∧
  (∀ st f e, imread f IMREAD_GRAYSCALE = Raise e →
             motion_step threshold st f = (st.1, st.2 ++ [error_line f e])) ∧
  (∀ st f e, motion_body threshold st.1 f = Raise e →
             motion_step threshold st f = (st.1, st.2 ++ [error_line f e])).
Proof.
  repeat apply conj.
  - intros e. unfold uniform_sampling, slice_step.
    repeat (case_match; simpl); try done; by intros [= <-].
  - intros e. unfold motion_based_sampling, motion_based_sampling_io.
    case_bool_decide as Hempty.
    + intros [= <-]. split; [done|by left].
    + destruct (float_lt threshold (float_of_Z 0)) eqn:Ht; [|done].
      intros [= <-]. split; [done|by right].
  - intros Hne Ht. unfold motion_based_sampling.
    by rewrite motion_based_sampling_valid.
  - intros [vars out] f Hf. unfold motion_step, motion_body. by rewrite Hf.
  - intros st f frame prev Hf Hp Hshape. by eapply motion_step_mismatch.
  - intros st f e Hf. unfold motion_step, motion_body. by rewrite Hf.
  - intros st f e Hbody. unfold motion_step. by rewrite Hbody.
Qed.

Lemma motion_absorbs_faults_witness :
  (["f0.jpg"; "huge.jpg"; "bad.jpg"; "f2.jpg"] ≠ [] ∧
   float_lt (float_of_Z 0) (float_of_Z 0) = false ∧
   imread (Cv2 := toy_cv2) "huge.jpg" IMREAD_GRAYSCALE
   = Raise (cv2_error "imread: image is too large")) ∧
  motion_based_sampling (H := toy_cv2)
    ["f0.jpg"; "huge.jpg"; "bad.jpg"; "f2.jpg"] (float_of_Z 0)
  = Ok ["f2.jpg"] ∧
  (motion_step (H := toy_cv2) (float_of_Z 0)
     (motion_scan (float_of_Z 0) motion_init ["f0.jpg"]) "huge.jpg").1
  = (motion_scan (H := toy_cv2) (float_of_Z 0) motion_init ["f0.jpg"]).1.
Proof.
  split; [split; [done|split; reflexivity]|].
  destruct (@motion_absorbs_faults toy_cv2
              ["f0.jpg"; "huge.jpg"; "bad.jpg"; "f2.jpg"] 1 (float_of_Z 0))
    as (_ & _ & Hrun & _ & _ & Hfault & _).
  split.
  - rewrite Hrun; [reflexivity|done|reflexivity].
  - rewrite (Hfault (motion_scan (float_of_Z 0) motion_init ["f0.jpg"])
               "huge.jpg" (cv2_error "imread: image is too large") eq_refl).
    reflexivity.
Defined.

(** ** The scenarios of the specification *)

(** Frames with the same histogram: nothing but the seed is selected. *)
Example scene_identical_frames :
  scene_change_detection (H := toy_cv2)
    ["f0.jpg"; "f1.jpg"; "f0.jpg"; "f1.jpg"; "f0.jpg"] (float_of_Z 10)
  = Ok ["f0.jpg"].
Proof. reflexivity. Qed.

(** A frame whose distance to its predecessor exceeds the threshold. *)
Example scene_one_change :
  scene_change_detection (H := toy_cv2)
    ["f0.jpg"; "f1.jpg"; "f2.jpg"; "f3.jpg"] (float_of_Z 30)
  = Ok ["f0.jpg"; "f2.jpg"].
Proof. reflexivity. Qed.

(** After a frame of another size the comparison goes on against the raster
    stored before it. *)
Example motion_after_mismatch :
  motion_based_sampling_io (H := toy_cv2)
    ["f0.jpg"; "small.jpg"; "f2.jpg"] (float_of_Z 0)
  = (Ok ["f2.jpg"], []).
Proof. reflexivity. Qed.

(** When the first decoded frame is the small one, no frame of the other
    size is ever compared. *)
Example motion_never_resumes :
  motion_based_sampling_io (H := toy_cv2)
    ["small.jpg"; "f0.jpg"; "f2.jpg"; "f3.jpg"] (float_of_Z 0)
  = (Ok [], []).
Proof. reflexivity. Qed.

(** * Further properties of the selectors *)

(** ** [uniform_sampling] *)

Lemma uniform_sampling_stride_one (frames : list string) (count : Z) :
  0 < count → count ≤ len frames → len frames < 2 * count →
  uniform_sampling frames count = Ok (take (Z.to_nat count) frames).
Proof.
  intros Hpos Hle Hlt. unfold uniform_sampling.
  assert (frames ≠ []) as Hne.
  { intros ->. unfold len in Hle. simpl in Hle. lia. }
  rewrite bool_decide_eq_false_2 by done.
  destruct (Z.leb_spec count 0) as [?|_]; [lia|].
  destruct (Z.gtb_spec count (len frames)) as [?|_]; [lia|].
  assert (len frames / count = 1) as ->.
  { symmetry. apply (Z.div_unique_pos _ _ 1 (len frames - count)); lia. }
  unfold slice_step, slice_to. simpl. rewrite every_nth_one.
  destruct (Z.leb_spec 0 count) as [_|?]; [done|lia].
Qed.

Lemma uniform_sampling_length (frames out : list string) (count : Z) :
  uniform_sampling frames count = Ok out →
  out ≠ [] ∧ 0 < count ∧ len out ≤ count ∧
  (len out = count ∨ out = frames).
Proof.
  unfold uniform_sampling. case_bool_decide as Hne; [done|].
  destruct (Z.leb_spec count 0) as [?|Hpos]; [done|].
  destruct (Z.gtb_spec count (len frames)) as [Hgt|Hle].
  - intros [= <-]. split; [done|]. split; [done|]. split; [lia|by right].
  - assert (1 ≤ len frames / count) as Hstride.
    { apply Z.div_le_lower_bound; lia. }
    assert (count * (len frames / count) ≤ len frames) as Hmul.
    { apply Z.mul_div_le. lia. }
    unfold slice_step.
    destruct (Z.eqb_spec (len frames / count) 0) as [?|_]; [lia|].
    destruct (Z.ltb_spec 0 (len frames / count)) as [_|?]; [|lia].
    simpl. intros [= <-]. unfold slice_to.
    destruct (Z.leb_spec 0 count) as [_|?]; [|lia].
    assert (Z.to_nat count
            ≤ length (every_nth (Z.to_nat (len frames / count)) 0 frames))%nat
      as Hfit.
    { apply every_nth_length_ge; [lia|]. unfold len in *. nia. }
    assert (length (take (Z.to_nat count)
              (every_nth (Z.to_nat (len frames / count)) 0 frames))
            = Z.to_nat count) as Hlen.
    { rewrite length_take. lia. }
    split.
    { intros Hnil. rewrite Hnil in Hlen. simpl in Hlen. lia. }
    split; [done|].
    set (out := take _ _) in *.
    assert (len out = count) as Hl by (unfold len at 1; rewrite Hlen; lia).
    split; [lia|by left].
Qed.

(** X1: when the count is more than half the number of frames (and at most
    that number), the stride is 1 and [uniform_sampling] returns the first
    count frames. *)
Theorem uniform_sampling_dense_is_prefix (frames : list string) (count : Z) :
  0 < count → count ≤ len frames → len frames < 2 * count →
  uniform_sampling frames count = Ok (take (Z.to_nat count) frames).
Proof. apply uniform_sampling_stride_one. Qed.

Lemma uniform_sampling_dense_is_prefix_witness :
  (0 < 3 ∧ 3 ≤ len ["f0"; "f1"; "f2"; "f3"; "f4"]
   ∧ len ["f0"; "f1"; "f2"; "f3"; "f4"] < 2 * 3) ∧
  uniform_sampling ["f0"; "f1"; "f2"; "f3"; "f4"] 3 = Ok ["f0"; "f1"; "f2"].
Proof.
  split; [vm_compute; done|].
  apply (uniform_sampling_dense_is_prefix ["f0"; "f1"; "f2"; "f3"; "f4"] 3);
    vm_compute; done.
Defined.

(** X2: sampling the result of [uniform_sampling] again with the same count
    gives it back. *)
Theorem uniform_sampling_idempotent (frames out : list string) (count : Z) :
  uniform_sampling frames count = Ok out →
  uniform_sampling out count = Ok out.
Proof.
  intros Hout.
  destruct (uniform_sampling_length _ _ _ Hout) as (Hne & Hpos & Hle & Hcase).
  destruct (Z.eq_dec (len out) count) as [Heq|Hneq].
  - rewrite uniform_sampling_stride_one by lia.
    rewrite <- Heq. unfold len. by rewrite Nat2Z.id, firstn_all.
  - destruct Hcase as [? | ->]; [done|].
    unfold uniform_sampling. rewrite bool_decide_eq_false_2 by done.
    destruct (Z.leb_spec count 0) as [?|_]; [lia|].
    destruct (Z.gtb_spec count (len frames)) as [_|?]; [done|lia].
Qed.

Lemma uniform_sampling_idempotent_witness :
  uniform_sampling ["f0"; "f1"; "f2"; "f3"; "f4"; "f5"; "f6"] 3
  = Ok ["f0"; "f2"; "f4"] ∧
  uniform_sampling ["f0"; "f2"; "f4"] 3 = Ok ["f0"; "f2"; "f4"].
Proof.
  split; [reflexivity|].
  apply (uniform_sampling_idempotent
           ["f0"; "f1"; "f2"; "f3"; "f4"; "f5"; "f6"] ["f0"; "f2"; "f4"] 3).
  reflexivity.
Defined.

(** ** [scene_change_detection] *)

Lemma decoded_frames_tail_sublist `{Cv2} (f : string) (fs : list string) :
  tail (decoded_frames IMREAD_COLOR (f :: fs)) `sublist_of` fs.
Proof.
  unfold decoded_frames.
  destruct (decide (decodable IMREAD_COLOR f = true)) as [Hf|Hf].
  - rewrite filter_cons_True by done. simpl. apply sublist_filter.
  - rewrite filter_cons_False by done.
    etrans; [apply sublist_tail|apply sublist_filter].
Qed.

(** A scan that runs to its end met no exception of the decoder or of a
    histogram primitive. *)
Lemma scene_scan_returns_faultless `{Cv2} (t : pyfloat) (st st' : scene_state)
    (fs : list string) :
  scene_scan t st fs = Ok st' →
  forallb (λ f, match imread f IMREAD_COLOR with
                | Ok (Some frame) => is_ok (color_hist frame)
                | Ok None => true
                | Raise _ => false
                end) fs = true ∧
  comparable_in_turn (option_list (prev_hist st) ++ omap frame_hist fs)
  = true.
Proof.
  revert st. induction fs as [|f fs IH]; intros st.
  - intros _. split; [done|]. simpl. rewrite app_nil_r.
    by destruct (prev_hist st).
  - simpl scene_scan. intros (st1 & Hstep & Hscan)%bind_Ok.
    destruct (IH _ Hscan) as [Hread Hcmp].
    simpl forallb. simpl omap. unfold frame_hist at 1.
    unfold scene_step in Hstep.
    destruct (imread f IMREAD_COLOR) as [[frame|]|e]; simpl in Hstep;
      [| |done].
    + destruct (color_hist frame) as [h|e]; simpl in Hstep; [|done].
      destruct (prev_hist st) as [prev|]; simpl in Hstep |- *.
      * destruct (compareHist prev h HISTCMP_CHISQR) as [d|e];
          simpl in Hstep; [|done].
        injection Hstep as <-. split; [done|]. exact Hcmp.
      * injection Hstep as <-. split; [done|]. exact Hcmp.
    + injection Hstep as <-. split; [done|]. exact Hcmp.
Qed.

(** X3: whenever [scene_change_detection] returns, its output is a
    subsequence of the frames in their order, so no longer than the input
    and without a reference that is not in the input; on a non-empty list
    it returns exactly when neither the decoder nor a histogram primitive
    raises on the frames. *)
Theorem scene_output_is_subsequence `{Cv2} (frames : list string)
    (threshold : pyfloat) :
  (∀ out, scene_change_detection frames threshold = Ok out →
     out `sublist_of` frames ∧ (length out ≤ length frames)%nat ∧
     ∀ f, f ∈ out → f ∈ frames) ∧
  (frames ≠ [] →
   scene_faultless frames = true ↔
   ∃ out, scene_change_detection frames threshold = Ok out).
Proof.
  split.
  - intros out Hout. destruct frames as [|frame0 rest]; [done|].
    destruct (scene_change_detection_appended _ _ _ _ Hout)
      as (app & -> & Happ).
    assert (frame0 :: app `sublist_of` frame0 :: rest) as Hsub.
    { apply sublist_skip. etrans; [exact Happ|].
      apply decoded_frames_tail_sublist. }
    split; [done|]. split; [by apply sublist_length|].
    intros f Hf. by eapply sublist_subseteq.
  - intros Hne. destruct frames as [|frame0 rest]; [done|]. split.
    + by apply scene_change_detection_total.
    + intros (out & Hout). unfold scene_change_detection in Hout.
      apply bind_Ok in Hout as (st' & Hscan & _).
      apply scene_scan_returns_faultless in Hscan as [Hread Hcmp].
      unfold scene_faultless. apply andb_true_intro. split; [done|].
      exact Hcmp.
Qed.

Lemma scene_output_is_subsequence_witness :
  (["f0.jpg"; "f1.jpg"; "f2.jpg"] ≠ [] ∧
   scene_faultless (H := toy_cv2) ["f0.jpg"; "f1.jpg"; "f2.jpg"] = true) ∧
  ∃ out, scene_change_detection (H := toy_cv2)
           ["f0.jpg"; "f1.jpg"; "f2.jpg"] (float_of_Z 30) = Ok out ∧
         out `sublist_of` ["f0.jpg"; "f1.jpg"; "f2.jpg"].
Proof.
  split; [split; [done|reflexivity]|].
  destruct (@scene_output_is_subsequence toy_cv2
              ["f0.jpg"; "f1.jpg"; "f2.jpg"] (float_of_Z 30))
    as [Hsub Htotal].
  destruct Htotal as [Htotal _]; [done|].
  destruct Htotal as (out & Hout); [reflexivity|].
  exists out. split; [exact Hout|]. apply (Hsub out Hout).
Defined.

(** The scan when nothing raises: a decoded frame is appended exactly when
    it differs from the decoded frame just before it. *)
Lemma scene_scan_changes `{Cv2} (t : pyfloat) (st : scene_state)
    (fs : list string) (prev : option string) :
  forallb (λ f, match imread f IMREAD_COLOR with
                | Ok (Some frame) => is_ok (color_hist frame)
                | Ok None => true
                | Raise _ => false
                end) fs = true →
  comparable_in_turn (option_list (prev_hist st) ++ omap frame_hist fs)
  = true →
  match prev with
  | None => prev_hist st = None
  | Some p => is_Some (prev_hist st) ∧ frame_hist p = prev_hist st
  end →
  ∃ st', scene_scan t st fs = Ok st' ∧
         selected_frames st'
         = selected_frames st
           ++ scene_changes t prev (decoded_frames IMREAD_COLOR fs).
Proof.
  revert st prev. induction fs as [|f fs IH]; intros st prev Hread Hcmp Hprev.
  - exists st. simpl. by rewrite app_nil_r.
  - simpl in Hread. apply andb_prop in Hread as [Hf Hread].
    simpl scene_scan. unfold scene_step.
    simpl omap in Hcmp.
    destruct (imread f IMREAD_COLOR) as [[frame|]|e] eqn:Hfr; [| |done].
    + rewrite (decoded_frames_cons_Some _ _ _ Hfr). simpl.
      destruct (color_hist frame) as [h|e] eqn:Hh; [|done]. simpl.
      assert (frame_hist f = Some h) as Hfh.
      { unfold frame_hist. by rewrite Hfr, Hh. }
      rewrite Hfh in Hcmp.
      destruct prev as [p|].
      * destruct Hprev as ([hp Hhp] & Hph). rewrite Hhp in *. simpl in *.
        apply andb_prop in Hcmp as [Hd Hcmp].
        destruct (compareHist hp h HISTCMP_CHISQR) as [d|e] eqn:Hcd; [|done].
        simpl.
        assert (scene_changed t p f = float_gt d t) as ->.
        { unfold scene_changed. by rewrite Hph, Hfh, Hcd. }
        destruct (IH {| selected_frames :=
                          if float_gt d t then selected_frames st ++ [f]
                          else selected_frames st;
                        prev_hist := Some h |} (Some f))
          as (st' & Hscan & Hsel); [done|done|simpl; eauto|].
        exists st'. split; [done|]. rewrite Hsel. simpl.
        destruct (float_gt d t); [by rewrite <- app_assoc|done].
      * rewrite Hprev in *. simpl in *.
        destruct (IH {| selected_frames := selected_frames st;
                        prev_hist := Some h |} (Some f))
          as (st' & Hscan & Hsel); [done|done|simpl; eauto|].
        exists st'. split; done.
    + rewrite (decoded_frames_cons_None _ _ Hfr). simpl.
      assert (frame_hist f = None) as Hfh.
      { unfold frame_hist. by rewrite Hfr. }
      rewrite Hfh in Hcmp. by apply IH.
Qed.

(** X4: when neither the decoder nor a histogram primitive raises on the
    frames, the output of [scene_change_detection] is [frames[0]] followed
    by the decoded frames whose histogram is farther than the threshold
    from that of the decoded frame just before them: each frame is compared
    with the previous decoded frame, selected or not. *)
Theorem scene_selects_changes `{Cv2} (frame0 : string) (rest : list string)
    (threshold : pyfloat) :
  scene_faultless (frame0 :: rest) = true →
  scene_change_detection (frame0 :: rest) threshold
  = Ok (frame0 :: scene_changes threshold None
                    (decoded_frames IMREAD_COLOR (frame0 :: rest))).
Proof.
  unfold scene_faultless. intros [Hread Hcmp]%andb_prop.
  unfold scene_change_detection.
  destruct (scene_scan_changes threshold
              {| selected_frames := [frame0]; prev_hist := None |}
              (frame0 :: rest) None Hread Hcmp eq_refl)
    as (st' & Hscan & Hsel).
  rewrite Hscan. simpl. by rewrite Hsel.
Qed.

Lemma scene_selects_changes_witness :
  scene_faultless (H := toy_cv2)
    ["f0.jpg"; "corrupt.jpg"; "f2.jpg"; "f3.jpg"; "f1.jpg"] = true ∧
  scene_change_detection (H := toy_cv2)
    ["f0.jpg"; "corrupt.jpg"; "f2.jpg"; "f3.jpg"; "f1.jpg"] (float_of_Z 30)
  = Ok ["f0.jpg"; "f2.jpg"; "f1.jpg"].
Proof.
  split; [reflexivity|].
  exact (@scene_selects_changes toy_cv2 "f0.jpg"
           ["corrupt.jpg"; "f2.jpg"; "f3.jpg"; "f1.jpg"] (float_of_Z 30)
           eq_refl).
Defined.

(** ** Frames that do not decode, thresholds that nothing exceeds *)

Lemma scene_scan_none_decodable `{Cv2} (t : pyfloat) (st : scene_state)
    (fs : list string) :
  Forall (λ f, imread f IMREAD_COLOR = Ok None) fs →
  scene_scan t st fs = Ok st.
Proof.
  induction 1 as [|f fs Hf _ IH]; [done|].
  simpl. rewrite scene_step_undecodable by done. exact IH.
Qed.

Lemma motion_scan_none_decodable `{Cv2} (t : pyfloat)
    (st : motion_state * list string) (fs : list string) :
  Forall (λ f, imread f IMREAD_GRAYSCALE = Ok None) fs →
  motion_scan t st fs = st.
Proof.
  induction 1 as [|f fs Hf _ IH]; [done|].
  rewrite motion_scan_cons.
  assert (motion_step t st f = st) as ->; [|exact IH].
  unfold motion_step, motion_body. rewrite Hf. by destruct st.
Qed.

(** X5: when no frame of a non-empty list decodes, [scene_change_detection]
    returns the first reference alone and [motion_based_sampling] returns
    the empty list, printing nothing; neither raises. *)
Theorem selectors_on_unreadable_frames `{Cv2} (frame0 : string)
    (rest : list string) (threshold : pyfloat) :
  (Forall (λ f, imread f IMREAD_COLOR = Ok None) (frame0 :: rest) →
   scene_change_detection (frame0 :: rest) threshold = Ok [frame0]) ∧
  (Forall (λ f, imread f IMREAD_GRAYSCALE = Ok None) (frame0 :: rest) →
   float_lt threshold (float_of_Z 0) = false →
   motion_based_sampling_io (frame0 :: rest) threshold = (Ok [], [])).
Proof.
  split.
  - intros Hnone. unfold scene_change_detection.
    by rewrite scene_scan_none_decodable.
  - intros Hnone Ht. rewrite motion_based_sampling_valid by done.
    by rewrite motion_scan_none_decodable.
Qed.

Lemma selectors_on_unreadable_frames_witness :
  (Forall (λ f, imread (Cv2 := toy_cv2) f IMREAD_COLOR = Ok None)
     ["gone.jpg"; "corrupt.jpg"] ∧
   Forall (λ f, imread (Cv2 := toy_cv2) f IMREAD_GRAYSCALE = Ok None)
     ["gone.jpg"; "corrupt.jpg"] ∧
   float_lt (float_of_Z 0) (float_of_Z 0) = false) ∧
  scene_change_detection (H := toy_cv2) ["gone.jpg"; "corrupt.jpg"]
    (float_of_Z 30) = Ok ["gone.jpg"] ∧
  motion_based_sampling_io (H := toy_cv2) ["gone.jpg"; "corrupt.jpg"]
    (float_of_Z 0) = (Ok [], []).
Proof.
  split; [repeat split; repeat constructor|].
  split.
  - apply (@selectors_on_unreadable_frames toy_cv2 "gone.jpg" ["corrupt.jpg"]).
    repeat constructor.
  - apply (@selectors_on_unreadable_frames toy_cv2 "gone.jpg" ["corrupt.jpg"]).
    + repeat constructor.
    + reflexivity.
Defined.

Lemma float_gt_nan_posinf (t d : pyfloat) :
  t = FNan ∨ t = FPosInf → float_gt d t = false.
Proof. intros [-> | ->]; by destruct d. Qed.

Lemma scene_scan_unselective `{Cv2} (t : pyfloat) (st st' : scene_state)
    (fs : list string) :
  (∀ d, float_gt d t = false) →
  scene_scan t st fs = Ok st' →
  selected_frames st' = selected_frames st.
Proof.
  intros Ht. revert st. induction fs as [|f fs IH]; intros st; simpl.
  - by intros [= <-].
  - intros (st1 & Hstep & Hscan)%bind_Ok.
    rewrite (IH _ Hscan).
    destruct (imread f IMREAD_COLOR) as [[frame|]|e] eqn:Hf.
    + destruct (scene_step_decoded _ _ _ _ _ Hf Hstep) as (h & _ & _ & Hsel).
      destruct (prev_hist st); [|done].
      destruct Hsel as (d & _ & ->). by rewrite Ht.
    + rewrite scene_step_undecodable in Hstep by done. by injection Hstep as <-.
    + rewrite (scene_step_imread_raises _ _ _ _ Hf) in Hstep. done.
Qed.

Lemma motion_scan_unselective `{Cv2} (t : pyfloat)
    (st : motion_state * list string) (fs : list string) :
  (∀ d, float_gt d t = false) →
  m_selected (motion_scan t st fs).1 = m_selected st.1.
Proof.
  intros Ht. revert st. induction fs as [|f fs IH]; intros st; [done|].
  rewrite motion_scan_cons, IH, motion_step_vars.
  destruct (decoded_gray f) as [frame|]; [|done].
  destruct (prev_frame st.1) as [prev|]; [|done].
  case_bool_decide; [done|].
  destruct (calcOpticalFlowFarneback prev frame farneback_config)
    as [flow|e]; [|done].
  destruct (norm_mean flow) as [m|e]; [|done].
  simpl. by rewrite Ht.
Qed.

(** X6: a threshold that is NaN or plus infinity is not rejected, and no
    distance exceeds it: on a non-empty list [motion_based_sampling] returns
    the empty list, and [scene_change_detection] returns the first
    reference alone when neither the decoder nor a histogram primitive
    raises. *)
Theorem nan_threshold_selects_nothing `{Cv2} (frame0 : string)
    (rest : list string) (threshold : pyfloat) :
  threshold = FNan ∨ threshold = FPosInf →
  motion_based_sampling (frame0 :: rest) threshold = Ok [] ∧
  (scene_faultless (frame0 :: rest) = true →
   scene_change_detection (frame0 :: rest) threshold = Ok [frame0]).
Proof.
  intros Ht.
  assert (∀ d, float_gt d threshold = false) as Hgt.
  { intros d. by apply float_gt_nan_posinf. }
  split.
  - unfold motion_based_sampling.
    rewrite motion_based_sampling_valid; [|done|by destruct Ht as [-> | ->]].
    rewrite motion_scan_unselective by done. reflexivity.
  - intros Hfree.
    destruct (scene_change_detection_total threshold _ _ Hfree) as (out & Hout).
    rewrite Hout. revert Hout. unfold scene_change_detection.
    intros (st' & Hscan & [= <-])%bind_Ok.
    by rewrite (scene_scan_unselective _ _ _ _ Hgt Hscan).
Qed.

Lemma nan_threshold_selects_nothing_witness :
  ((FNan = FNan ∨ FNan = FPosInf) ∧
   scene_faultless (H := toy_cv2) ["f0.jpg"; "f2.jpg"] = true) ∧
  motion_based_sampling (H := toy_cv2) ["f0.jpg"; "f2.jpg"] FNan = Ok [] ∧
  scene_change_detection (H := toy_cv2) ["f0.jpg"; "f2.jpg"] FNan
  = Ok ["f0.jpg"].
Proof.
  split; [split; [by left|reflexivity]|].
  destruct (@nan_threshold_selects_nothing toy_cv2 "f0.jpg" ["f2.jpg"] FNan)
    as [Hmotion Hscene]; [by left|].
  split; [exact Hmotion|apply Hscene; reflexivity].
Defined.

(** ** [motion_based_sampling]: the frames that count *)

(** With the previous raster of shape [s], or unset and the first frame to
    decode of shape [s], the scan passes over every frame that does not
    decode, or decodes to another shape than [s]; a frame on which the
    decoder raises still has its line printed. *)
Lemma motion_scan_same_shape `{Cv2} (t : pyfloat) (s : list nat)
    (st : motion_state * list string) (fs : list string) :
  (∀ p, prev_frame st.1 = Some p → shape p = s) →
  (prev_frame st.1 = None → ∀ r, first_decoded fs = Some r → shape r = s) →
  motion_scan t st fs
  = motion_scan t st (filter (λ f, counts_for_shape s f = true) fs).
Proof.
  revert st. induction fs as [|f fs IH]; intros st Hprev Hfirst; [done|].
  rewrite first_decoded_cons in Hfirst.
  destruct (counts_for_shape s f) eqn:Hs.
  - rewrite filter_cons_True by done. rewrite !motion_scan_cons.
    unfold counts_for_shape in Hs.
    destruct (imread f IMREAD_GRAYSCALE) as [[frame|]|e] eqn:Hf; [|done|].
    + apply bool_decide_eq_true_1 in Hs.
      assert (decoded_gray f = Some frame) as Hd by by apply decoded_gray_Some.
      apply IH; rewrite motion_step_vars, Hd.
      * destruct (prev_frame st.1) as [prev|] eqn:Hp.
        -- case_bool_decide; [by rewrite Hp|].
           destruct (calcOpticalFlowFarneback prev frame farneback_config)
             as [flow|e]; [|by rewrite Hp].
           destruct (norm_mean flow) as [m|e]; [|by rewrite Hp].
           simpl. by intros p [= <-].
        -- simpl. by intros p [= <-].
      * destruct (prev_frame st.1) as [prev|] eqn:Hp; [|done].
        case_bool_decide; [by rewrite Hp|].
        destruct (calcOpticalFlowFarneback prev frame farneback_config)
          as [flow|e]; [|by rewrite Hp].
        destruct (norm_mean flow) as [m|e]; [by simpl|by rewrite Hp].
    + assert (decoded_gray f = None) as Hd
        by (unfold decoded_gray; by rewrite Hf).
      rewrite Hd in Hfirst.
      apply IH; rewrite motion_step_vars, Hd; done.
  - rewrite filter_cons_False by (by rewrite Hs). rewrite motion_scan_cons.
    unfold counts_for_shape in Hs.
    destruct (imread f IMREAD_GRAYSCALE) as [[frame|]|e] eqn:Hf; [| |done].
    + apply bool_decide_eq_false_1 in Hs.
      assert (decoded_gray f = Some frame) as Hd by by apply decoded_gray_Some.
      rewrite Hd in Hfirst.
      destruct (prev_frame st.1) as [prev|] eqn:Hp.
      * rewrite (motion_step_mismatch t st f frame prev Hf Hp).
        -- apply IH; [intros p Hp'; apply Hprev; congruence|]. by rewrite Hp.
        -- rewrite (Hprev prev eq_refl). by intros ?.
      * destruct Hs. by apply Hfirst.
    + assert (motion_step t st f = st) as ->.
      { unfold motion_step, motion_body. rewrite Hf. by destruct st. }
      assert (decoded_gray f = None) as Hd
        by (unfold decoded_gray; by rewrite Hf).
      rewrite Hd in Hfirst. by apply IH.
Qed.

(** The frames on which the decoder raises leave the loop variables as
    they are. *)
Lemma motion_scan_vars_has_shape `{Cv2} (t : pyfloat) (s : list nat)
    (st st' : motion_state * list string) (fs : list string) :
  st.1 = st'.1 →
  (motion_scan t st (filter (λ f, counts_for_shape s f = true) fs)).1
  = (motion_scan t st' (filter (λ f, has_shape s f = true) fs)).1.
Proof.
  revert st st'. induction fs as [|f fs IH]; intros st st' Hst; [done|].
  destruct (imread f IMREAD_GRAYSCALE) as [[frame|]|e] eqn:Hf.
  - assert (counts_for_shape s f = has_shape s f) as Hc
      by (unfold counts_for_shape, has_shape; by rewrite Hf).
    destruct (has_shape s f) eqn:Hs.
    + rewrite !filter_cons_True by done. rewrite !motion_scan_cons.
      apply IH. by rewrite !motion_step_vars, Hst.
    + rewrite !filter_cons_False by (by rewrite ?Hc, ?Hs). by apply IH.
  - rewrite !filter_cons_False; [by apply IH| |].
    + unfold has_shape. by rewrite Hf.
    + unfold counts_for_shape. by rewrite Hf.
  - rewrite filter_cons_True by (unfold counts_for_shape; by rewrite Hf).
    rewrite (filter_cons_False (λ f, has_shape s f = true))
      by (unfold has_shape; by rewrite Hf).
    rewrite motion_scan_cons. apply IH.
    rewrite motion_step_vars. unfold decoded_gray. by rewrite Hf.
Qed.

Lemma first_decoded_has_shape `{Cv2} (frames : list string) (r0 : ndarray) :
  first_decoded frames = Some r0 →
  frames ≠ [] ∧ filter (λ f, has_shape (shape r0) f = true) frames ≠ []
  ∧ filter (λ f, counts_for_shape (shape r0) f = true) frames ≠ [].
Proof.
  intros Hfirst. split; [by intros ->|]. revert Hfirst.
  induction frames as [|f fs IH]; [done|].
  rewrite first_decoded_cons. unfold decoded_gray at 1.
  destruct (imread f IMREAD_GRAYSCALE) as [[frame|]|e] eqn:Hf.
  - intros [= <-]. split.
    + rewrite filter_cons_True; [done|].
      unfold has_shape. rewrite Hf. by apply bool_decide_eq_true_2.
    + rewrite filter_cons_True; [done|].
      unfold counts_for_shape. rewrite Hf. by apply bool_decide_eq_true_2.
  - intros Hfs. destruct (IH Hfs) as [Hh Hc]. split.
    + rewrite filter_cons_False; [done|]. unfold has_shape. by rewrite Hf.
    + rewrite filter_cons_False; [done|].
      unfold counts_for_shape. by rewrite Hf.
  - intros Hfs. destruct (IH Hfs) as [Hh Hc]. split.
    + rewrite filter_cons_False; [done|]. unfold has_shape. by rewrite Hf.
    + rewrite filter_cons_True; [done|].
      unfold counts_for_shape. by rewrite Hf.
Qed.

(** X7: from the first decoded frame on, [motion_based_sampling] passes
    over frames of any other size to the end.  It returns the same list as
    on the frames that decode to the shape of the first decoded frame; and
    it returns and prints the same as on those frames together with the
    ones on which the decoder raises, whose lines are still printed. *)
Theorem motion_ignores_other_shapes `{Cv2} (frames : list string)
    (threshold : pyfloat) (r0 : ndarray) :
  first_decoded frames = Some r0 →
  motion_based_sampling frames threshold
  = motion_based_sampling
      (filter (λ f, has_shape (shape r0) f = true) frames) threshold
  ∧ motion_based_sampling_io frames threshold
    = motion_based_sampling_io
        (filter (λ f, counts_for_shape (shape r0) f = true) frames) threshold.
Proof.
  intros Hfirst.
  destruct (first_decoded_has_shape _ _ Hfirst) as (Hne & Hne' & Hne'').
  assert (motion_scan threshold motion_init frames
          = motion_scan threshold motion_init
              (filter (λ f, counts_for_shape (shape r0) f = true) frames))
    as Hscan.
  { apply motion_scan_same_shape; [done|]. intros _ r Hr. congruence. }
  unfold motion_based_sampling, motion_based_sampling_io.
  rewrite !bool_decide_eq_false_2 by done.
  destruct (float_lt threshold (float_of_Z 0)); [done|].
  split; simpl.
  - rewrite Hscan. f_equal. f_equal. by apply motion_scan_vars_has_shape.
  - by rewrite Hscan.
Qed.

Lemma motion_ignores_other_shapes_witness :
  first_decoded (H := toy_cv2)
    ["small.jpg"; "f0.jpg"; "huge.jpg"; "corrupt.jpg"; "f2.jpg"]
  = Some ([2; 2]%nat, 99) ∧
  motion_based_sampling (H := toy_cv2)
    ["small.jpg"; "f0.jpg"; "huge.jpg"; "corrupt.jpg"; "f2.jpg"]
    (float_of_Z 0)
  = motion_based_sampling (H := toy_cv2) ["small.jpg"] (float_of_Z 0) ∧
  motion_based_sampling_io (H := toy_cv2)
    ["small.jpg"; "f0.jpg"; "huge.jpg"; "corrupt.jpg"; "f2.jpg"]
    (float_of_Z 0)
  = motion_based_sampling_io (H := toy_cv2) ["small.jpg"; "huge.jpg"]
      (float_of_Z 0).
Proof.
  split; [reflexivity|].
  exact (@motion_ignores_other_shapes toy_cv2
           ["small.jpg"; "f0.jpg"; "huge.jpg"; "corrupt.jpg"; "f2.jpg"]
           (float_of_Z 0) ([2; 2]%nat, 99) eq_refl).
Defined.

(** * Properties of the extraction *)

(** ** The names of the frame files *)

Lemma string_length_app (s1 s2 : string) :
  String.length (s1 +:+ s2) = (String.length s1 + String.length s2)%nat.
Proof. induction s1 as [|c s1 IH]; simpl; [done|]. by rewrite IH. Qed.

Lemma string_app_inj_r (s1 s2 t : string) : s1 +:+ t = s2 +:+ t → s1 = s2.
Proof.
  revert s2. induction s1 as [|c s1 IH]; intros [|c' s2] Heq.
  - done.
  - apply (f_equal String.length) in Heq.
    rewrite !string_length_app in Heq. simpl in Heq. lia.
  - apply (f_equal String.length) in Heq.
    rewrite !string_length_app in Heq. simpl in Heq. lia.
  - simpl in Heq. injection Heq as -> Heq. f_equal. by apply IH.
Qed.

(** Reading a zero-padded number back. *)
Lemma zeros_str_nat_decode (k n : nat) :
  ∃ d, NilEmpty.uint_of_string (zeros k +:+ str_nat n) = Some d
       ∧ Nat.of_uint d = n.
Proof.
  induction k as [|k (d & Hd & Hn)]; simpl.
  - exists (Nat.to_uint n). split.
    + apply NilEmpty.usu.
    + apply DecimalNat.Unsigned.of_to.
  - exists (Decimal.D0 d). rewrite Hd. split; [done|]. exact Hn.
Qed.

Lemma zfill_str_nat_inj (w n m : nat) :
  zfill w (str_nat n) = zfill w (str_nat m) → n = m.
Proof.
  unfold zfill. intros Heq.
  destruct (zeros_str_nat_decode (w - String.length (str_nat n)) n)
    as (d & Hd & <-).
  destruct (zeros_str_nat_decode (w - String.length (str_nat m)) m)
    as (d' & Hd' & <-).
  rewrite Heq in Hd. congruence.
Qed.

Lemma format_04d_inj (a b : Z) :
  0 ≤ a → 0 ≤ b → format_04d a = format_04d b → a = b.
Proof.
  intros Ha Hb. unfold format_04d.
  destruct (Z.ltb_spec a 0) as [?|_]; [lia|].
  destruct (Z.ltb_spec b 0) as [?|_]; [lia|].
  intros Heq%zfill_str_nat_inj. lia.
Qed.

Lemma frame_file_inj (output_dir : string) (a b : Z) :
  0 ≤ a → 0 ≤ b →
  frame_file output_dir a = frame_file output_dir b → a = b.
Proof.
  intros Ha Hb. unfold frame_file, path_join. simpl.
  destruct (String.eqb output_dir EmptyString || ends_with_slash output_dir).
  - intros Heq%(inj (String.append output_dir)).
    injection Heq as Heq. apply (inj (String.append EmptyString)) in Heq.
    apply string_app_inj_r in Heq. by apply format_04d_inj.
  - intros Heq%(inj (String.append output_dir)).
    injection Heq as Heq. apply (inj (String.append EmptyString)) in Heq.
    apply string_app_inj_r in Heq. by apply format_04d_inj.
Qed.

#[local] Instance nth_frame_file_inj (output_dir : string) :
  Inj (=) (=) (nth_frame_file output_dir).
Proof.
  intros i j Heq. unfold nth_frame_file in Heq.
  apply frame_file_inj in Heq; lia.
Qed.

(** ** The loop of [extract_frames] *)

Lemma extract_turn_names `{VideoIO} (dir : string) (k total : Z)
    (st st' : extract_state) (log log' : list event) (frame : ndarray) :
  0 ≤ saved_count st →
  extracted_frames st
  = nth_frame_file dir <$> seq 0 (Z.to_nat (saved_count st)) →
  extract_turn dir k total st log frame = (Return st', log') →
  0 ≤ saved_count st' ∧
  extracted_frames st'
  = nth_frame_file dir <$> seq 0 (Z.to_nat (saved_count st')).
Proof.
  intros Hpos Hnames. unfold extract_turn.
  destruct (py_mod (frame_count st) k) as [r|e]; [|done].
  destruct (r =? 0); [|by intros [= <- _]].
  destruct (imwrite _ frame) as [w|e]; [|done].
  assert (0 ≤ saved_count st + 1 ∧
          extracted_frames st ++ [frame_file dir (saved_count st)]
          = nth_frame_file dir <$> seq 0 (Z.to_nat (saved_count st + 1)))
    as Hnext.
  { split; [lia|].
    replace (Z.to_nat (saved_count st + 1))
      with (S (Z.to_nat (saved_count st))) by lia.
    rewrite seq_S, fmap_app, <- Hnames. simpl. unfold nth_frame_file.
    by rewrite Z2Nat.id. }
  destruct (0 <? total).
  - destruct (py_mod (frame_count st) (total / 10)) as [r'|e]; [|done].
    destruct (r' =? 0); by intros [= <- _].
  - by intros [= <- _].
Qed.

Lemma extract_loop_names `{VideoIO} (dir : string) (k total : Z)
    (frames : list ndarray) (st st' : extract_state) (log log' : list event) :
  0 ≤ saved_count st →
  extracted_frames st
  = nth_frame_file dir <$> seq 0 (Z.to_nat (saved_count st)) →
  extract_loop dir k total st log frames = (Return st', log') →
  0 ≤ saved_count st' ∧
  extracted_frames st'
  = nth_frame_file dir <$> seq 0 (Z.to_nat (saved_count st')).
Proof.
  revert st log. induction frames as [|frame rest IH];
    intros st log Hpos Hnames; simpl.
  - by intros [= <- _].
  - destruct (extract_turn dir k total st log frame) as [[st1|e] log1] eqn:Hturn;
      [|done].
    destruct (extract_turn_names _ _ _ _ _ _ _ _ Hpos Hnames Hturn).
    by apply IH.
Qed.

Lemma extract_try_names `{VideoIO} (v dir : string) (r : Z) (cap : capture)
    (st : extract_state) (log : list event) :
  extract_try v dir r cap = (Return st, log) →
  extracted_frames st = nth_frame_file dir <$> seq 0 (length (extracted_frames st))
  ∧ NoDup (extracted_frames st).
Proof.
  unfold extract_try.
  destruct (negb (cap_opened cap)); [done|].
  destruct (int_of_float (cap_fps cap)) as [fps|e]; [|done].
  destruct (int_of_float (cap_frame_count cap)) as [total|e]; [|done].
  intros Hloop. apply extract_loop_names in Hloop as [_ Hnames]; [|done..].
  assert (length (extracted_frames st) = Z.to_nat (saved_count st)) as Hlen.
  { by rewrite Hnames, length_fmap, length_seq. }
  rewrite Hlen. split; [done|].
  rewrite Hnames. apply NoDup_fmap_2; [apply _|apply NoDup_seq].
Qed.

Lemma extract_frames_names_of_result `{VideoIO} (v dir : string) (r : Z)
    (l : list string) (log : list event) :
  extract_frames v dir r = (Return l, log) →
  l = nth_frame_file dir <$> seq 0 (length l) ∧ NoDup l.
Proof.
  unfold extract_frames.
  destruct (negb (path_exists v)); [done|].
  destruct (r <=? 0); [done|].
  destruct (makedirs dir) as [u|e]; [|done].
  destruct (extract_try v dir r (VideoCapture v)) as [[st|e] log0] eqn:Htry;
    [|done].
  intros [= <- _]. by eapply extract_try_names.
Qed.

(** X8: the list returned by [extract_frames] is frame_0000.jpg,
    frame_0001.jpg, ... in the output directory, numbered from zero without
    a gap, and its paths are pairwise distinct. *)
Theorem extract_frames_names `{VideoIO} (video_path output_dir : string)
    (frame_rate : Z) (l : list string) :
  (extract_frames video_path output_dir frame_rate).1 = Return l →
  l = (λ i, path_join output_dir
              ("frame_" +:+ format_04d (Z.of_nat i) +:+ ".jpg"))
      <$> seq 0 (length l)
  ∧ NoDup l.
Proof.
  destruct (extract_frames video_path output_dir frame_rate) as [res log]
    eqn:Hrun.
  simpl. intros ->. by eapply extract_frames_names_of_result.
Qed.

Lemma extract_frames_names_witness :
  (@extract_frames toy_cv2 toy_os toy_video "video.mp4" "out" 15).1
  = Return ["out/frame_0000.jpg"; "out/frame_0001.jpg"; "out/frame_0002.jpg";
            "out/frame_0003.jpg"; "out/frame_0004.jpg"; "out/frame_0005.jpg"]
  ∧ NoDup ["out/frame_0000.jpg"; "out/frame_0001.jpg"; "out/frame_0002.jpg";
           "out/frame_0003.jpg"; "out/frame_0004.jpg"; "out/frame_0005.jpg"].
Proof.
  assert ((@extract_frames toy_cv2 toy_os toy_video "video.mp4" "out" 15).1
          = Return ["out/frame_0000.jpg"; "out/frame_0001.jpg";
                    "out/frame_0002.jpg"; "out/frame_0003.jpg";
                    "out/frame_0004.jpg"; "out/frame_0005.jpg"]) as Hrun
    by (vm_compute; reflexivity).
  split; [exact Hrun|].
  exact (proj2 (@extract_frames_names toy_cv2 toy_os toy_video
                  "video.mp4" "out" 15 _ Hrun)).
Defined.

Lemma writes_of_app `{Cv2} (log1 log2 : list event) :
  writes_of (log1 ++ log2) = writes_of log1 ++ writes_of log2.
Proof. unfold writes_of. apply omap_app. Qed.

(** The countdown to the next frame to save, from the frame counter. *)
Lemma countdown_next (k a : Z) :
  1 ≤ k → (- (a + 1)) mod k = k - 1 - a mod k.
Proof.
  intros Hk. symmetry.
  apply (Z.mod_unique_pos _ _ (- (a / k) - 1)).
  - pose proof (Z.mod_pos_bound a k). lia.
  - pose proof (Z.div_mod a k). lia.
Qed.

Lemma countdown_now (k a : Z) :
  1 ≤ k → (- a) mod k = if a mod k =? 0 then 0 else k - a mod k.
Proof.
  intros Hk. destruct (Z.eqb_spec (a mod k) 0) as [Hz|Hnz].
  - apply Z.mod_opp_l_z; lia.
  - apply Z.mod_opp_l_nz; lia.
Qed.

(** With an interval of at least one, a frame count that does not stop the
    progress line and an [imwrite] that does not raise, the loop saves the
    frames that [every_nth] keeps. *)
Lemma extract_loop_selects `{VideoIO} (dir : string) (k total : Z)
    (frames : list ndarray) (st : extract_state) (log : list event) :
  1 ≤ k → total ≤ 0 ∨ 10 ≤ total →
  (∀ path frame, ∃ w, imwrite path frame = Return w) →
  ∃ st' log' new,
    extract_loop dir k total st log frames = (Return st', log') ∧
    extracted_frames st' = extracted_frames st ++ new ∧
    let sel := every_nth (Z.to_nat k)
                 (Z.to_nat ((- frame_count st) mod k)) frames in
    length new = length sel ∧
    writes_of log' = writes_of log ++ zip new sel.
Proof.
  intros Hk Htotal Hw. revert st log.
  induction frames as [|frame rest IH]; intros st log.
  - exists st, log, []. simpl. by rewrite !app_nil_r.
  - simpl extract_loop. unfold extract_turn, py_mod.
    destruct (Z.eqb_spec k 0) as [?|_]; [lia|].
    pose proof (countdown_now k (frame_count st) Hk) as Hnow.
    pose proof (countdown_next k (frame_count st) Hk) as Hnext.
    destruct (Z.eqb_spec (frame_count st `mod` k) 0) as [Hhit|Hmiss].
    + destruct (Hw (frame_file dir (saved_count st)) frame) as [w ->].
      set (st1 := {| extracted_frames :=
                       extracted_frames st ++ [frame_file dir (saved_count st)];
                     frame_count := frame_count st + 1;
                     saved_count := saved_count st + 1 |}).
      set (log1 := log ++ [EvImwrite (frame_file dir (saved_count st)) frame w]).
      assert (∃ log2, writes_of log2 = writes_of log1 ∧
                (if 0 <? total
                 then match
                        (if total `div` 10 =? 0
                         then Throw (PyZeroDivisionError modulo_by_zero_msg)
                         else Return (frame_count st `mod` (total `div` 10)))
                      with
                      | Return r' =>
                          if r' =? 0
                          then (Return st1,
                                log1 ++ [EvProgress (frame_count st) total])
                          else (Return st1, log1)
                      | Throw e => (Throw e, log1)
                      end
                 else (Return st1, log1)) = (Return st1, log2))
        as (log2 & Hlog2 & ->).
      { destruct (Z.ltb_spec 0 total) as [Hpos|_]; [|by exists log1].
        destruct Htotal as [?|Hten]; [lia|].
        destruct (Z.eqb_spec (total `div` 10) 0) as [Hz|_].
        { pose proof (Z.div_le_lower_bound total 10 1). lia. }
        destruct (_ =? 0); [|by exists log1].
        eexists. split; [|done]. rewrite writes_of_app. simpl.
        by rewrite app_nil_r. }
      destruct (IH st1 log2) as (st' & log' & new & Hloop & Hext & Hlen & Hwr).
      exists st', log', (frame_file dir (saved_count st) :: new).
      split; [done|]. split.
      { rewrite Hext. simpl. by rewrite <- app_assoc. }
      simpl frame_count in Hlen, Hwr.
      rewrite Hnext, Hhit in Hlen, Hwr.
      rewrite Hnow. simpl.
      replace (Z.to_nat k - 1)%nat with (Z.to_nat (k - 1 - 0)) by lia.
      split; [simpl; by rewrite Hlen|].
      rewrite Hwr, Hlog2. unfold log1. rewrite writes_of_app. simpl.
      by rewrite <- app_assoc.
    + set (st1 := {| extracted_frames := extracted_frames st;
                     frame_count := frame_count st + 1;
                     saved_count := saved_count st |}).
      destruct (IH st1 log) as (st' & log' & new & Hloop & Hext & Hlen & Hwr).
      exists st', log', new. split; [done|]. split; [done|].
      simpl frame_count in Hlen, Hwr. rewrite Hnext in Hlen, Hwr.
      rewrite Hnow.
      pose proof (Z.mod_pos_bound (frame_count st) k).
      replace (Z.to_nat (k - frame_count st `mod` k))
        with (S (Z.to_nat (k - 1 - frame_count st `mod` k))) by lia.
      simpl. done.
Qed.

Lemma extract_frames_valid `{VideoIO} (v dir : string) (r fps total : Z) :
  path_exists v = true → 0 < r → makedirs dir = Return tt →
  cap_opened (VideoCapture v) = true →
  int_of_float (cap_fps (VideoCapture v)) = Return fps →
  int_of_float (cap_frame_count (VideoCapture v)) = Return total →
  extract_frames v dir r =
    let '(res, log) :=
      extract_loop dir (fps / r) total
        {| extracted_frames := []; frame_count := 0; saved_count := 0 |}
        [] (cap_frames (VideoCapture v)) in
    let log' := EvMakedirs dir :: log ++ [EvRelease] in
    match res with
    | Throw e =>
        (Throw (PyRuntimeError ("Error processing video: " +:+ pyexn_str e)),
         log')
    | Return st =>
        (Return (extracted_frames st),
         log' ++ [EvPrint ("Extracted " +:+ str_Z (saved_count st)
                           +:+ " frames and saved to " +:+ dir)])
    end.
Proof.
  intros Hv Hr Hmk Hopen Hfps Htotal. unfold extract_frames, extract_try.
  rewrite Hv, Hmk, Hopen, Hfps, Htotal. simpl.
  destruct (Z.leb_spec r 0) as [?|_]; [lia|]. done.
Qed.

Lemma extract_frames_selected `{VideoIO} (v dir : string) (r fps total : Z) :
  path_exists v = true → 0 < r → makedirs dir = Return tt →
  cap_opened (VideoCapture v) = true →
  int_of_float (cap_fps (VideoCapture v)) = Return fps →
  int_of_float (cap_frame_count (VideoCapture v)) = Return total →
  r ≤ fps → total ≤ 0 ∨ 10 ≤ total →
  (∀ path frame, ∃ w, imwrite path frame = Return w) →
  let k := Z.to_nat (fps / r) in
  let sel := every_nth k 0 (cap_frames (VideoCapture v)) in
  let names := nth_frame_file dir <$> seq 0 (length sel) in
  (1 ≤ k)%nat ∧
  (extract_frames v dir r).1 = Return names ∧
  writes_of (extract_frames v dir r).2 = zip names sel.
Proof.
  intros Hv Hr Hmk Hopen Hfps Htotal Hle Hcount Hw k sel names.
  assert (1 ≤ fps / r) as Hk.
  { apply Z.div_le_lower_bound; lia. }
  assert (1 ≤ k)%nat as Hk' by (unfold k; lia).
  split; [done|].
  rewrite (extract_frames_valid _ _ _ _ _ Hv Hr Hmk Hopen Hfps Htotal).
  destruct (extract_loop_selects dir (fps / r) total
              (cap_frames (VideoCapture v))
              {| extracted_frames := []; frame_count := 0; saved_count := 0 |}
              [] Hk Hcount Hw)
    as (st' & log' & new & Hloop & Hext & Hlen & Hwr).
  simpl in Hext, Hlen, Hwr. rewrite Z.mod_0_l in Hlen, Hwr by lia.
  change (Z.to_nat 0) with 0%nat in Hlen, Hwr. fold k in Hlen, Hwr.
  fold sel in Hlen, Hwr.
  pose proof Hloop as Hnames.
  apply extract_loop_names in Hnames as [_ Hnames]; [|done..].
  assert (new = names) as ->.
  { rewrite <- Hext, Hnames. unfold names. f_equal. f_equal.
    rewrite <- Hlen, <- Hext, Hnames. by rewrite length_fmap, length_seq. }
  rewrite Hloop. simpl. rewrite Hext. split; [done|].
  rewrite !writes_of_app. simpl. rewrite !app_nil_r. exact Hwr.
Qed.

(** The number of elements that [every_nth] keeps. *)
Lemma every_nth_length {A} (k c : nat) (l : list A) :
  (1 ≤ k)%nat →
  length (every_nth k c l) = ((length l - c + k - 1) / k)%nat.
Proof.
  intros Hk. revert c. induction l as [|x t IH]; intros c; simpl.
  - symmetry. apply Nat.div_small. lia.
  - destruct c as [|c']; simpl.
    + rewrite IH.
      replace (length t + k - 0)%nat with (length t + 1 * k)%nat by lia.
      rewrite Nat.div_add by lia.
      destruct (le_lt_dec (k - 1) (length t)) as [Hge|Hlt].
      * replace (length t - (k - 1) + k - 1)%nat with (length t) by lia. lia.
      * replace (length t - (k - 1) + k - 1)%nat with (k - 1)%nat by lia.
        rewrite !Nat.div_small by lia. lia.
    + rewrite IH. done.
Qed.

(** X9: for an opened video, a frame rate of at most the frames per second
    of the video, a reported frame count that is not between 1 and 9 and an
    [imwrite] that does not raise, [extract_frames] saves every k-th frame
    read, k = fps // frame_rate, starting with the first: the i-th file of
    the returned list is written with frame number i*k, whatever [imwrite]
    returns. *)
Theorem extract_frames_keeps_every_kth `{VideoIO} (video_path output_dir : string)
    (frame_rate fps total_frames : Z) :
  path_exists video_path = true → 0 < frame_rate →
  makedirs output_dir = Return tt →
  cap_opened (VideoCapture video_path) = true →
  int_of_float (cap_fps (VideoCapture video_path)) = Return fps →
  int_of_float (cap_frame_count (VideoCapture video_path))
  = Return total_frames →
  frame_rate ≤ fps → total_frames ≤ 0 ∨ 10 ≤ total_frames →
  (∀ path frame, ∃ w, imwrite path frame = Return w) →
  let k := Z.to_nat (fps / frame_rate) in
  let sel := every_nth k 0 (cap_frames (VideoCapture video_path)) in
  let names := nth_frame_file output_dir <$> seq 0 (length sel) in
  (1 ≤ k)%nat ∧
  (extract_frames video_path output_dir frame_rate).1 = Return names ∧
  writes_of (extract_frames video_path output_dir frame_rate).2
  = zip names sel ∧
  ∀ i : nat, sel !! i = cap_frames (VideoCapture video_path) !! (i * k)%nat.
Proof.
  intros Hv Hr Hmk Hopen Hfps Htotal Hle Hcount Hw k sel names.
  destruct (extract_frames_selected video_path output_dir frame_rate fps
              total_frames) as (Hk & Hres & Hwr); [done..|].
  split; [done|]. split; [done|]. split; [done|].
  intros i. unfold sel. by rewrite every_nth_lookup.
Qed.

Lemma extract_frames_keeps_every_kth_witness :
  (path_exists (Os := toy_os) "video.mp4" = true ∧ 0 < 10 ∧ 10 ≤ 30 ∧
   (12 ≤ 0 ∨ 10 ≤ 12)) ∧
  (@extract_frames toy_cv2 toy_os toy_video "video.mp4" "out" 10).1
  = Return ["out/frame_0000.jpg"; "out/frame_0001.jpg"; "out/frame_0002.jpg";
            "out/frame_0003.jpg"] ∧
  writes_of (@extract_frames toy_cv2 toy_os toy_video "video.mp4" "out" 10).2
  = [("out/frame_0000.jpg", ([4; 4]%nat, 0));
     ("out/frame_0001.jpg", ([4; 4]%nat, 3));
     ("out/frame_0002.jpg", ([4; 4]%nat, 6));
     ("out/frame_0003.jpg", ([4; 4]%nat, 9))].
Proof.
  split; [repeat split; try reflexivity; try lia; by right|].
  destruct (@extract_frames_keeps_every_kth toy_cv2 toy_os toy_video
              "video.mp4" "out" 10 30 12)
    as (_ & Hnames & Hwrites & _);
    [reflexivity|lia|reflexivity|reflexivity|reflexivity|reflexivity|lia
    |by right|intros; by eexists|].
  vm_compute in Hnames, Hwrites. vm_compute. split; [exact Hnames|exact Hwrites].
Defined.

(** X18: under the same conditions, [extract_frames] returns
    ceil(n / k) paths for a video of n frames, k = fps // frame_rate. *)
Theorem extract_frames_count `{VideoIO} (video_path output_dir : string)
    (frame_rate fps total_frames : Z) :
  path_exists video_path = true → 0 < frame_rate →
  makedirs output_dir = Return tt →
  cap_opened (VideoCapture video_path) = true →
  int_of_float (cap_fps (VideoCapture video_path)) = Return fps →
  int_of_float (cap_frame_count (VideoCapture video_path))
  = Return total_frames →
  frame_rate ≤ fps → total_frames ≤ 0 ∨ 10 ≤ total_frames →
  (∀ path frame, ∃ w, imwrite path frame = Return w) →
  let k := Z.to_nat (fps / frame_rate) in
  let n := length (cap_frames (VideoCapture video_path)) in
  ∃ l, (extract_frames video_path output_dir frame_rate).1 = Return l ∧
       length l = ((n + k - 1) / k)%nat.
Proof.
  intros Hv Hr Hmk Hopen Hfps Htotal Hle Hcount Hw k n.
  destruct (extract_frames_selected video_path output_dir frame_rate fps
              total_frames) as (Hk & Hres & _); [done..|].
  eexists. split; [exact Hres|].
  rewrite length_fmap, length_seq, every_nth_length by done.
  fold k n. f_equal. lia.
Qed.

Lemma extract_frames_count_witness :
  (path_exists (Os := toy_os) "video.mp4" = true ∧ 0 < 7 ∧ 7 ≤ 30 ∧
   (12 ≤ 0 ∨ 10 ≤ 12)) ∧
  ∃ l, (@extract_frames toy_cv2 toy_os toy_video "video.mp4" "out" 7).1
       = Return l ∧ length l = 3%nat.
Proof.
  split; [repeat split; try reflexivity; try lia; by right|].
  destruct (@extract_frames_count toy_cv2 toy_os toy_video
              "video.mp4" "out" 7 30 12)
    as (l & Hl & Hlen);
    [reflexivity|lia|reflexivity|reflexivity|reflexivity|reflexivity|lia
    |by right|intros; by eexists|].
  exists l. split; [exact Hl|]. rewrite Hlen. vm_compute. reflexivity.
Defined.

(** X10: asking for more frames per second than the video has makes the
    interval zero: on an opened video with at least one frame,
    [extract_frames] then fails with [RuntimeError] on the first frame,
    after creating the directory and without writing a file. *)
Theorem extract_frames_rate_above_fps `{VideoIO} (video_path output_dir : string)
    (frame_rate fps total_frames : Z) :
  path_exists video_path = true →
  makedirs output_dir = Return tt →
  cap_opened (VideoCapture video_path) = true →
  int_of_float (cap_fps (VideoCapture video_path)) = Return fps →
  int_of_float (cap_frame_count (VideoCapture video_path))
  = Return total_frames →
  0 ≤ fps < frame_rate →
  cap_frames (VideoCapture video_path) ≠ [] →
  extract_frames video_path output_dir frame_rate
  = (Throw (PyRuntimeError ("Error processing video: " +:+ modulo_by_zero_msg)),
     [EvMakedirs output_dir; EvRelease]).
Proof.
  intros Hv Hmk Hopen Hfps Htotal Hrate Hframes.
  assert (0 < frame_rate) as Hr by lia.
  rewrite (extract_frames_valid _ _ _ _ _ Hv Hr Hmk Hopen Hfps Htotal).
  rewrite Z.div_small by lia.
  destruct (cap_frames (VideoCapture video_path)) as [|frame rest]; [done|].
  reflexivity.
Qed.

Lemma extract_frames_rate_above_fps_witness :
  (path_exists (Os := toy_os) "video.mp4" = true ∧ 0 ≤ 30 < 40) ∧
  @extract_frames toy_cv2 toy_os toy_video "video.mp4" "out" 40
  = (Throw (PyRuntimeError "Error processing video: integer modulo by zero"),
     [EvMakedirs "out"; EvRelease]).
Proof.
  split; [split; [reflexivity|lia]|].
  apply (@extract_frames_rate_above_fps toy_cv2 toy_os toy_video
           "video.mp4" "out" 40 30 12); try reflexivity; [lia|discriminate].
Defined.

(** X11: when the video reports between 1 and 9 frames, the step of the
    progress line is zero: on an opened video with at least one frame and a
    frame rate of at most its frames per second, [extract_frames] fails with
    [RuntimeError] right after the first frame is written. *)
Theorem extract_frames_short_video `{VideoIO} (video_path output_dir : string)
    (frame_rate fps total_frames : Z) (frame : ndarray) (rest : list ndarray)
    (w : bool) :
  path_exists video_path = true → 0 < frame_rate →
  makedirs output_dir = Return tt →
  cap_opened (VideoCapture video_path) = true →
  int_of_float (cap_fps (VideoCapture video_path)) = Return fps →
  int_of_float (cap_frame_count (VideoCapture video_path))
  = Return total_frames →
  frame_rate ≤ fps → 0 < total_frames < 10 →
  cap_frames (VideoCapture video_path) = frame :: rest →
  imwrite (frame_file output_dir 0) frame = Return w →
  extract_frames video_path output_dir frame_rate
  = (Throw (PyRuntimeError ("Error processing video: " +:+ modulo_by_zero_msg)),
     [EvMakedirs output_dir; EvImwrite (frame_file output_dir 0) frame w;
      EvRelease]).
Proof.
  intros Hv Hr Hmk Hopen Hfps Htotal Hle Hshort Hframes Hw.
  rewrite (extract_frames_valid _ _ _ _ _ Hv Hr Hmk Hopen Hfps Htotal).
  rewrite Hframes. simpl extract_loop. unfold extract_turn, py_mod.
  assert (1 ≤ fps / frame_rate) as Hk.
  { apply Z.div_le_lower_bound; lia. }
  destruct (Z.eqb_spec (fps / frame_rate) 0) as [?|_]; [lia|].
  simpl frame_count. simpl saved_count. rewrite Z.mod_0_l by lia.
  simpl. rewrite Hw.
  destruct (Z.ltb_spec 0 total_frames) as [_|?]; [|lia].
  rewrite (Z.div_small total_frames 10) by lia. reflexivity.
Qed.

Lemma extract_frames_short_video_witness :
  (path_exists (Os := toy_os) "short.mp4" = true ∧ 0 < 15 ∧ 15 ≤ 30
   ∧ 0 < 5 < 10) ∧
  @extract_frames toy_cv2 toy_os toy_video "short.mp4" "out" 15
  = (Throw (PyRuntimeError "Error processing video: integer modulo by zero"),
     [EvMakedirs "out";
      @EvImwrite toy_cv2 "out/frame_0000.jpg" ([4; 4]%nat, 0) true;
      EvRelease]).
Proof.
  split; [repeat split; try reflexivity; lia|].
  apply (@extract_frames_short_video toy_cv2 toy_os toy_video
           "short.mp4" "out" 15 30 5 ([4; 4]%nat, 0)
           (tail (take 5 toy_video_frames)) true);
    try reflexivity; lia.
Defined.

(** X12: a failure of [extract_frames] is a [ValueError] of the two checks,
    raised before anything is done, or what [os.makedirs] raised, or a
    [RuntimeError] that wraps whatever went wrong from the opening of the
    video on, raised after the capture is released. *)
Theorem extract_frames_failures `{VideoIO} (video_path output_dir : string)
    (frame_rate : Z) (e : pyexn) (log : list event) :
  extract_frames video_path output_dir frame_rate = (Throw e, log) →
  (∃ msg, e = PyValueError msg ∧ log = [] ∧
          (path_exists video_path = false ∨ frame_rate ≤ 0)) ∨
  (makedirs output_dir = Throw e ∧ log = [EvMakedirs output_dir]) ∨
  (∃ msg, e = PyRuntimeError ("Error processing video: " +:+ msg) ∧
          head log = Some (EvMakedirs output_dir) ∧
          last log = Some EvRelease).
Proof.
  unfold extract_frames.
  destruct (path_exists video_path) eqn:Hv; simpl.
  2:{ intros [= <- <-]. left. eexists. split; [done|]. split; [done|by left]. }
  destruct (Z.leb_spec frame_rate 0) as [Hr|_].
  { intros [= <- <-]. left. eexists. split; [done|]. split; [done|by right]. }
  destruct (makedirs output_dir) as [u|e'] eqn:Hmk.
  2:{ intros [= <- <-]. right. left. done. }
  destruct (extract_try video_path output_dir frame_rate
              (VideoCapture video_path)) as [[st|e'] log0]; [done|].
  intros [= <- <-]. right. right. eexists. split; [done|]. split; [done|].
  rewrite app_comm_cons. apply last_snoc.
Qed.

Lemma extract_frames_failures_witness :
  ∃ msg,
    (@extract_frames toy_cv2 toy_os toy_video "f0.jpg" "out" 15).1
    = Throw (PyRuntimeError ("Error processing video: " +:+ msg)) ∧
    last (@extract_frames toy_cv2 toy_os toy_video "f0.jpg" "out" 15).2
    = Some EvRelease.
Proof.
  destruct (@extract_frames_failures toy_cv2 toy_os toy_video
              "f0.jpg" "out" 15
              (PyRuntimeError
                 "Error processing video: Failed to open video: f0.jpg")
              [EvMakedirs "out"; EvRelease] eq_refl)
    as [(msg & Hmsg & _)|[[Hmk _]|(msg & Hmsg & _ & Hlast)]].
  - discriminate Hmsg.
  - discriminate Hmk.
  - exists "Failed to open video: f0.jpg". split; reflexivity.
Defined.

(** * Properties of the detection *)

Lemma detect_step_entry `{Detector} (model : yolo_model) (dir : string)
    (total idx : nat) (st : list (option boxes_array) * list string)
    (f : string) :
  (detect_step model dir total idx st f).1 = st.1 ++ [detect_entry model dir f]
  ∧ length (detect_step model dir total idx st f).2 = S (length st.2).
Proof.
  unfold detect_step, detect_entry, detect_body.
  destruct (negb (path_exists f)); simpl.
  { split; [done|]. rewrite length_app. simpl. lia. }
  destruct (imread f IMREAD_COLOR) as [[frame|]|e]; simpl.
  2,3:(split; [done|]; rewrite length_app; simpl; lia).
  destruct (model_call model frame) as [results|e]; simpl.
  2:{ split; [done|]. rewrite length_app. simpl. lia. }
  destruct (results_save results dir) as [u|e]; simpl.
  2:{ split; [done|]. rewrite length_app. simpl. lia. }
  destruct (results_boxes results) as [data|e]; simpl;
    (split; [done|]; rewrite length_app; simpl; lia).
Qed.

Lemma detect_loop_entries `{Detector} (model : yolo_model) (dir : string)
    (total idx : nat) (st : list (option boxes_array) * list string)
    (frames : list string) :
  (detect_loop model dir total idx st frames).1
  = st.1 ++ (detect_entry model dir <$> frames)
  ∧ length (detect_loop model dir total idx st frames).2
    = (length st.2 + length frames)%nat.
Proof.
  revert idx st. induction frames as [|f frames IH]; intros idx st; simpl.
  - rewrite app_nil_r. split; [done|lia].
  - destruct (IH (S idx) (detect_step model dir total idx st f)) as [-> ->].
    destruct (detect_step_entry model dir total idx st f) as [-> ->].
    rewrite <- app_assoc. split; [done|lia].
Qed.

Lemma detect_objects_returns `{Detector} (frames : list string)
    (model_path dir : string) (model : yolo_model) :
  frames ≠ [] → path_exists model_path = true →
  makedirs dir = Return tt → YOLO model_path = Return model →
  (detect_objects frames model_path dir).1
  = Return (detect_entry model dir <$> frames)
  ∧ length (detect_objects frames model_path dir).2 = length frames.
Proof.
  intros Hne Hmp Hmk Hmodel. unfold detect_objects.
  rewrite bool_decide_eq_false_2 by done.
  rewrite Hmp, Hmk, Hmodel. simpl.
  destruct (detect_loop_entries model dir (length frames) 1 ([], []) frames)
    as [-> ->].
  done.
Qed.

Lemma detect_entry_Some `{Detector} (model : yolo_model) (dir : string)
    (f : string) (data : boxes_array) :
  detect_entry model dir f = Some data ↔
  path_exists f = true ∧
  ∃ frame results,
    imread f IMREAD_COLOR = Ok (Some frame) ∧
    model_call model frame = Return results ∧
    results_save results dir = Return tt ∧
    results_boxes results = Return data.
Proof.
  unfold detect_entry, detect_body.
  destruct (path_exists f); simpl; [|by split; [|intros [? _]]].
  destruct (imread f IMREAD_COLOR) as [[frame|]|e]; simpl.
  2,3:(split; [done|]; by intros (_ & ? & ? & ? & _)).
  destruct (model_call model frame) as [results|e] eqn:Hcall; simpl.
  2:{ split; [done|]. intros (_ & ? & ? & [= <-] & ? & _). congruence. }
  destruct (results_save results dir) as [[]|e] eqn:Hsave; simpl.
  2:{ split; [done|].
      intros (_ & ? & ? & [= <-] & Hc & Hs & _). congruence. }
  destruct (results_boxes results) as [data'|e] eqn:Hboxes; simpl.
  - split.
    + intros [= <-]. split; [done|]. by exists frame, results.
    + intros (_ & ? & ? & [= <-] & Hc & _ & Hb). congruence.
  - split; [done|].
    intros (_ & ? & ? & [= <-] & Hc & _ & Hb). congruence.
Qed.

(** X13: once the list is not empty, the model file exists, the directory
    is made and the model loads, [detect_objects] returns one entry per
    frame, in the order of the frames, and prints one line per frame.  The
    entry of a frame depends on that frame alone: it is the detections when
    the file exists, decodes, and inference, saving and the reading of the
    boxes all succeed, and [None] in every other case. *)
Theorem detect_objects_one_entry_per_frame `{Detector} (frames : list string)
    (model_path output_dir : string) (model : yolo_model) :
  frames ≠ [] → path_exists model_path = true →
  makedirs output_dir = Return tt → YOLO model_path = Return model →
  (detect_objects frames model_path output_dir).1
  = Return (detect_entry model output_dir <$> frames) ∧
  length (detect_objects frames model_path output_dir).2 = length frames ∧
  ∀ f data,
    detect_entry model output_dir f = Some data ↔
    path_exists f = true ∧
    ∃ frame results,
      imread f IMREAD_COLOR = Ok (Some frame) ∧
      model_call model frame = Return results ∧
      results_save results output_dir = Return tt ∧
      results_boxes results = Return data.
Proof.
  intros Hne Hmp Hmk Hmodel.
  destruct (detect_objects_returns frames model_path output_dir model)
    as [Hres Hout]; [done..|].
  split; [done|]. split; [done|].
  intros f data. apply detect_entry_Some.
Qed.

Lemma detect_objects_one_entry_per_frame_witness :
  (["f0.jpg"; "nope.jpg"; "bad.jpg"; "f2.jpg"] ≠ [] ∧
   path_exists (Os := toy_os) "yolov8n.pt" = true) ∧
  (@detect_objects toy_cv2 toy_os toy_detector
     ["f0.jpg"; "nope.jpg"; "bad.jpg"; "f2.jpg"] "yolov8n.pt" "res").1
  = Return [Some 10; None; None; Some 60].
Proof.
  split; [split; [done|reflexivity]|].
  destruct (@detect_objects_one_entry_per_frame toy_cv2 toy_os toy_detector
              ["f0.jpg"; "nope.jpg"; "bad.jpg"; "f2.jpg"] "yolov8n.pt" "res" tt)
    as (Hres & _); [done|reflexivity..|].
  exact Hres.
Defined.

(** X14: [detect_objects] fails only before the first frame is looked at,
    having printed nothing: with [ValueError] on an empty list or a missing
    model file, or with what [os.makedirs] or the loading of the model
    raised. *)
Theorem detect_objects_failures `{Detector} (frames : list string)
    (model_path output_dir : string) (e : pyexn) (out : list string) :
  detect_objects frames model_path output_dir = (Throw e, out) →
  out = [] ∧
  ((frames = [] ∧ e = PyValueError "Empty frames list provided") ∨
   (path_exists model_path = false ∧
    e = PyValueError ("Model not found at: " +:+ model_path)) ∨
   makedirs output_dir = Throw e ∨
   YOLO model_path = Throw e).
Proof.
  unfold detect_objects. case_bool_decide as Hempty.
  { intros [= <- <-]. split; [done|]. by left. }
  destruct (path_exists model_path) eqn:Hmp; simpl.
  2:{ intros [= <- <-]. split; [done|]. right. by left. }
  destruct (makedirs output_dir) as [u|e'] eqn:Hmk.
  2:{ intros [= <- <-]. split; [done|]. right. right. by left. }
  destruct (YOLO model_path) as [model|e'] eqn:Hmodel; [done|].
  intros [= <- <-]. split; [done|]. right. right. by right.
Qed.

Lemma detect_objects_failures_witness :
  @detect_objects toy_cv2 toy_os toy_detector ["f0.jpg"] "missing.pt" "res"
  = (Throw (PyValueError "Model not found at: missing.pt"), []) ∧
  path_exists (Os := toy_os) "missing.pt" = false.
Proof.
  split; [reflexivity|].
  destruct (@detect_objects_failures toy_cv2 toy_os toy_detector
              ["f0.jpg"] "missing.pt" "res"
              (PyValueError "Model not found at: missing.pt") [] eq_refl)
    as (_ & [[Hempty _]|[[Hmissing _]|[Hmk|Hmodel]]]).
  - discriminate Hempty.
  - exact Hmissing.
  - discriminate Hmk.
  - discriminate Hmodel.
Defined.

(** * The stages in sequence *)

Lemma motion_based_sampling_after_first `{Cv2} (frames : list string)
    (t : pyfloat) :
  frames ≠ [] → float_lt t (float_of_Z 0) = false →
  ∃ out, motion_based_sampling frames t = Ok out ∧
         out `sublist_of` tail frames.
Proof.
  intros Hne Ht. unfold motion_based_sampling.
  rewrite motion_based_sampling_valid by done. simpl.
  destruct (motion_scan_appended t motion_init frames) as (app & Happ & Hsub).
  simpl in Happ, Hsub. rewrite Happ. by exists app.
Qed.

(** X15: detection after uniform sampling.  For a count between 1 and the
    number of frames, [uniform_sampling] followed by [detect_objects] (model
    file present, directory made, model loaded) gives exactly count
    entries. *)
Theorem detect_after_uniform_sampling `{Detector} (frames sel : list string)
    (count : Z) (model_path output_dir : string) (model : yolo_model) :
  count ≤ len frames →
  uniform_sampling frames count = Ok sel →
  path_exists model_path = true →
  makedirs output_dir = Return tt → YOLO model_path = Return model →
  ∃ entries,
    (detect_objects sel model_path output_dir).1 = Return entries ∧
    length entries = Z.to_nat count.
Proof.
  intros Hle Hsel Hmp Hmk Hmodel.
  destruct (uniform_sampling_length _ _ _ Hsel) as (Hne & Hpos & Hlen & Hcase).
  destruct (detect_objects_returns sel model_path output_dir model)
    as [-> _]; [done..|].
  eexists. split; [done|]. rewrite length_fmap.
  destruct Hcase as [Heq | ->]; unfold len in *; lia.
Qed.

Lemma detect_after_uniform_sampling_witness :
  (3 ≤ len ["f0.jpg"; "nope.jpg"; "bad.jpg"; "f1.jpg"; "f2.jpg"; "f3.jpg"] ∧
   uniform_sampling
     ["f0.jpg"; "nope.jpg"; "bad.jpg"; "f1.jpg"; "f2.jpg"; "f3.jpg"] 3
   = Ok ["f0.jpg"; "bad.jpg"; "f2.jpg"]) ∧
  ∃ entries,
    (@detect_objects toy_cv2 toy_os toy_detector
       ["f0.jpg"; "bad.jpg"; "f2.jpg"] "yolov8n.pt" "res").1 = Return entries
    ∧ length entries = 3%nat.
Proof.
  split; [split; [vm_compute; discriminate|reflexivity]|].
  apply (@detect_after_uniform_sampling toy_cv2 toy_os toy_detector
           ["f0.jpg"; "nope.jpg"; "bad.jpg"; "f1.jpg"; "f2.jpg"; "f3.jpg"]
           ["f0.jpg"; "bad.jpg"; "f2.jpg"] 3 "yolov8n.pt" "res" tt);
    try reflexivity.
  vm_compute. discriminate.
Defined.

(** X16: detection after the two comparing selectors.  What
    [scene_change_detection] returns is never empty, so [detect_objects]
    gives at least one entry for it; [motion_based_sampling] on a single
    frame returns the empty list, on which [detect_objects] raises
    [ValueError]. *)
Theorem detect_after_selection `{Detector} (frames sel : list string)
    (frame : string) (threshold : pyfloat) (model_path output_dir : string)
    (model : yolo_model) :
  path_exists model_path = true →
  makedirs output_dir = Return tt → YOLO model_path = Return model →
  (scene_change_detection frames threshold = Ok sel →
   ∃ entries,
     (detect_objects sel model_path output_dir).1 = Return entries ∧
     length entries = length sel ∧ (1 ≤ length entries)%nat) ∧
  (float_lt threshold (float_of_Z 0) = false →
   motion_based_sampling [frame] threshold = Ok [] ∧
   detect_objects [] model_path output_dir
   = (Throw (PyValueError "Empty frames list provided"), [])).
Proof.
  intros Hmp Hmk Hmodel. split.
  - intros Hsel. destruct frames as [|frame0 rest]; [done|].
    destruct (scene_change_detection_appended _ _ _ _ Hsel) as (app & -> & _).
    destruct (detect_objects_returns (frame0 :: app) model_path output_dir
                model) as [-> _]; [done..|].
    eexists. split; [done|]. rewrite length_fmap. simpl. split; [done|lia].
  - intros Ht. split; [|done].
    destruct (motion_based_sampling_after_first [frame] threshold)
      as (out & -> & Hsub); [done..|].
    simpl in Hsub. apply sublist_nil_r in Hsub. by subst.
Qed.

Lemma detect_after_selection_witness :
  (path_exists (Os := toy_os) "yolov8n.pt" = true ∧
   scene_change_detection (H := toy_cv2) ["corrupt.jpg"; "f1.jpg"]
     (float_of_Z 30) = Ok ["corrupt.jpg"] ∧
   float_lt (float_of_Z 30) (float_of_Z 0) = false) ∧
  (∃ entries,
     (@detect_objects toy_cv2 toy_os toy_detector ["corrupt.jpg"]
        "yolov8n.pt" "res").1 = Return entries ∧ (1 ≤ length entries)%nat) ∧
  motion_based_sampling (H := toy_cv2) ["f0.jpg"] (float_of_Z 30) = Ok [].
Proof.
  split; [repeat split|].
  destruct (@detect_after_selection toy_cv2 toy_os toy_detector
              ["corrupt.jpg"; "f1.jpg"] ["corrupt.jpg"] "f0.jpg"
              (float_of_Z 30) "yolov8n.pt" "res" tt)
    as [Hscene Hmotion]; [reflexivity..|].
  split.
  - destruct (Hscene eq_refl) as (entries & Hres & _ & Hlen).
    exists entries. split; [exact Hres|exact Hlen].
  - apply Hmotion. reflexivity.
Defined.

(** X17: motion sampling after extraction.  On the frames that
    [extract_frames] returns, [motion_based_sampling] selects among the
    files after frame_0000.jpg: that first file is never in its output. *)
Theorem motion_after_extraction `{VideoIO} (video_path output_dir : string)
    (frame_rate : Z) (frames : list string) (threshold : pyfloat) :
  (extract_frames video_path output_dir frame_rate).1 = Return frames →
  frames ≠ [] → float_lt threshold (float_of_Z 0) = false →
  ∃ out, motion_based_sampling frames threshold = Ok out ∧
         out `sublist_of` tail frames ∧
         head frames = Some (frame_file output_dir 0) ∧
         frame_file output_dir 0 ∉ out.
Proof.
  destruct (extract_frames video_path output_dir frame_rate) as [res log]
    eqn:Hrun.
  simpl. intros -> Hne Ht.
  destruct (extract_frames_names_of_result _ _ _ _ _ Hrun) as [Hnames Hnd].
  destruct (motion_based_sampling_after_first frames threshold Hne Ht)
    as (out & Hout & Hsub).
  exists out. split; [done|]. split; [done|].
  destruct frames as [|f rest]; [done|].
  assert (f = frame_file output_dir 0) as ->.
  { apply (f_equal head) in Hnames. simpl in Hnames. by injection Hnames. }
  split; [done|].
  apply NoDup_cons in Hnd as [Hnotin _].
  intros Hin. apply Hnotin. by eapply sublist_subseteq.
Qed.

Lemma motion_after_extraction_witness :
  (@extract_frames toy_cv2 toy_os toy_video "video.mp4" "out" 10).1
  = Return ["out/frame_0000.jpg"; "out/frame_0001.jpg"; "out/frame_0002.jpg";
            "out/frame_0003.jpg"] ∧
  ∃ out,
    motion_based_sampling (H := toy_cv2)
      ["out/frame_0000.jpg"; "out/frame_0001.jpg"; "out/frame_0002.jpg";
       "out/frame_0003.jpg"] (float_of_Z 0) = Ok out ∧
    "out/frame_0000.jpg" ∉ out.
Proof.
  assert ((@extract_frames toy_cv2 toy_os toy_video "video.mp4" "out" 10).1
          = Return ["out/frame_0000.jpg"; "out/frame_0001.jpg";
                    "out/frame_0002.jpg"; "out/frame_0003.jpg"]) as Hrun
    by (vm_compute; reflexivity).
  split; [exact Hrun|].
  destruct (@motion_after_extraction toy_cv2 toy_os toy_video
              "video.mp4" "out" 10 _ (float_of_Z 0) Hrun)
    as (out & Hout & _ & _ & Hnotin); [done|reflexivity|].
  exists out. split; [exact Hout|exact Hnotin].
Defined.
